(** * muses-pi: the image refresh script of an e-ink picture frame

    A shallow embedding of [image.py]: one module-level script that fetches
    an image reference, downloads and caches the image, renders it on an
    Inky panel, and is driven by a button listener and an hourly loop.

    The script is effectful throughout.  Its effects are modelled by a state
    and exception monad over a [World] (the cache directory and the
    chronological trace of everything the script did), and everything the
    script cannot decide itself (the network, the clock, the image codec,
    the panel, the GPIO lines) is an oracle of an environment [Env].

    The script runs its two loops in two threads.  Each loop is modelled on
    its own, for a bounded number of turns of its [while True]; the
    interleaving of the two is not modelled.  The trace also records the
    entries of [refresh_image] and [update_display], which the script itself
    does not log, so that their calls can be counted. *)

From Stdlib Require Import List ZArith QArith String Ascii Bool Lia Permutation.
Import ListNotations.
Local Open Scope Z_scope.
Local Open Scope string_scope.
Local Open Scope list_scope.


Set Warnings "-register-all".

(** ** Python values, exceptions and results *)

(** The exceptions the script can meet.  All of them are subclasses of
    [Exception]; [RequestException] stands for the whole hierarchy of
    [requests.RequestException]. *)
Variant request_error :=
| ConnectionFailed                 (* requests.ConnectionError *)
| TimedOut                         (* requests.Timeout, after 10 s *)
| HTTPError (status : Z)           (* raised by raise_for_status() *)
| JSONDecodeError                  (* requests.exceptions.JSONDecodeError *)
| MissingSchema.                   (* the argument is no URL *)

Variant exn :=
| RequestException (why : request_error)
| TypeError
| AttributeError
| ValueError
| IndexError
| OSError
| OtherException.

Definition is_RequestException (e : exn) : bool :=
  match e with RequestException _ => true | _ => false end.

Definition is_TypeError (e : exn) : bool :=
  match e with TypeError => true | _ => false end.

Variant result (A : Type) :=
| Ok (a : A)
| Raise (e : exn).
Arguments Ok {A} a.
Arguments Raise {A} e.

Definition returns {A} (r : result A) : bool :=
  match r with Ok _ => true | Raise _ => false end.

(** A decoded JSON document, as [response.json()] hands it to the script:
    [JNull] is Python's [None], an object is a [dict]. *)
Inductive json :=
| JNull
| JBool (b : bool)
| JNum (q : Q)
| JStr (s : string)
| JArr (items : list json)
| JObj (fields : list (string * json)).

(** Python's truth value of such a value ([if image_url:]). *)
Definition truthy (v : json) : bool :=
  match v with
  | JNull => false
  | JBool b => b
  | JNum q => negb (Qeq_bool q 0)
  | JStr s => negb (String.eqb s "")
  | JArr items => match items with [] => false | _ => true end
  | JObj fields => match fields with [] => false | _ => true end
  end.

Fixpoint assoc (key : string) (fields : list (string * json)) : option json :=
  match fields with
  | [] => None
  | (k, v) :: rest => if String.eqb k key then Some v else assoc key rest
  end.

(** ** Time *)

(** [datetime.now()]: a naive local time with its microsecond field. *)
Record datetime := {
  year : Z; month : Z; day : Z;
  hour : Z; minute : Z; second : Z; microsecond : Z
}.

Definition digit (n : Z) : ascii := ascii_of_nat (48 + Z.to_nat (n mod 10)).

(** [%m], [%d], [%H], [%M], [%S]: two digits, zero padded. *)
Definition digits2 (n : Z) : string :=
  String (digit (n / 10)) (String (digit n) "").

(** [%Y]: four digits. *)
Definition digits4 (n : Z) : string :=
  String (digit (n / 1000)) (String (digit (n / 100))
    (String (digit (n / 10)) (String (digit n) ""))).

(** [now.strftime("%Y%m%d_%H%M%S")] *)
Definition strftime (t : datetime) : string :=
  digits4 (year t) ++ digits2 (month t) ++ digits2 (day t) ++ "_" ++
  digits2 (hour t) ++ digits2 (minute t) ++ digits2 (second t).

(** ** The cache directory *)

Definition bytes := list Byte.byte.

(** A directory entry: its name, its modification time (what
    [os.path.getmtime] reads, here in nanoseconds) and its content. *)
Record file := { f_name : string; f_mtime : Z; f_data : bytes }.

(** A decoded picture (PIL's [Image]). *)
Record image := { im_size : Z * Z; im_pixels : bytes }.

Fixpoint find_file (name : string) (files : list file) : option file :=
  match files with
  | [] => None
  | f :: rest => if String.eqb (f_name f) name then Some f else find_file name rest
  end.

(** Writing a file: a new name is a new entry of the directory, an existing
    name has its entry replaced. *)
Fixpoint write_file (files : list file) (f : file) : list file :=
  match files with
  | [] => [f]
  | g :: rest =>
      if String.eqb (f_name g) (f_name f) then f :: rest
      else g :: write_file rest f
  end.

(** [s.endswith(suffix)] *)
Definition endswith (s suffix : string) : bool :=
  (String.length suffix <=? String.length s)%nat &&
  String.eqb
    (substring (String.length s - String.length suffix) (String.length suffix) s)
    suffix.

(** [os.path.join(a, b)] for a relative [b]. *)
Definition os_path_join (a b : string) : string := a ++ "/" ++ b.

(** The name of the entry a path of the form [dir/name] denotes. *)
Definition basename_in (dir path : string) : option string :=
  let n := String.length dir in
  if String.eqb (substring 0 (S n) path) (dir ++ "/")
  then Some (substring (S n) (String.length path - S n) path)
  else None.

(** ** Events *)

Variant level := INFO | WARNING | ERROR.

(** The log lines of the script, one constructor per [logging] call, with
    the values its f-string interpolates. *)
Variant message :=
| MsgFetchedURL (image_url : json)
| MsgNoImageURL
| MsgErrorFetching (e : exn)
| MsgSavedNewImage (image_path : string)
| MsgErrorDownloading (e : exn)
| MsgUnexpectedError (e : exn)
| MsgErrorRetrieving (e : exn)
| MsgNoValidImage
| MsgDisplayUpdated (image_path : string)
| MsgErrorDisplaying (e : exn)
| MsgRefreshing
| MsgFallingBack
| MsgListenerStarted
| MsgButtonPress (gpio_number : Z) (label : string)
| MsgButtonB
| MsgSleeping (seconds : Z)
| MsgTopOfHour.

(** What reaches the panel. *)
Variant panel_call :=
| SetImage (img : image) (saturation : option Q)
| SetBorder (colour : Z)
| Show.

(** Entries of the two functions whose calls the specification counts.
    They are ghost events: the script leaves no such mark. *)
Variant call :=
| Call_refresh_image
| Call_update_display (image_path : option string).

Variant event :=
| Log (lvl : level) (msg : message)
| HttpGet (url : json)
| FileSaved (path : string)
| Panel (c : panel_call)
| Slept (seconds : Z)
| GpioRead
| Enter (c : call).

(** ** The world and its environment *)

(** [cache_dir] is the directory [images/] in listing order ([None]: the
    directory cannot be read or written); [trace] is everything done so far,
    oldest first. *)
Record World := { cache_dir : option (list file); trace : list event }.

Definition emit (e : event) (w : World) : World :=
  {| cache_dir := cache_dir w; trace := trace w ++ [e] |}.

Record response := {
  status_code : Z;
  body_json : option json;      (* what [json()] decodes; [None]: malformed *)
  content : bytes
}.

Variant http_outcome :=
| HttpFailed (why : request_error)
| HttpResponse (r : response).

Record edge_event := { line_offset : Z; timestamp_ns : Z }.

(** Everything outside the script.  An oracle that takes the world may
    answer differently each time, since every call leaves an event. *)
Record Env := {
  http_get : World -> string -> http_outcome;
  datetime_now : World -> datetime;
  fs_clock : World -> Z;
  fs_write_error : World -> string -> option exn;
  pil_decode : bytes -> option image;
  pil_encode_png : image -> bytes;
  pil_resize : image -> Z * Z -> option image;
  inky_resolution : Z * Z;
  inky_set_image : World -> image -> option Q -> option exn;
  inky_set_border : World -> Z -> option exn;
  inky_show : World -> option exn;
  chip_line_offset_from_id : Z -> Z;
  request_read_edge_events : World -> list edge_event
}.

(** ** The monad of the script *)

Definition M (A : Type) : Type := World -> result A * World.

Definition ret {A} (a : A) : M A := fun w => (Ok a, w).

Definition raise {A} (e : exn) : M A := fun w => (Raise e, w).

Definition bind {A B} (m : M A) (k : A -> M B) : M B :=
  fun w =>
    match m w with
    | (Ok a, w') => k a w'
    | (Raise e, w') => (Raise e, w')
    end.

(** [try: m except ...]: the handler says which exceptions it catches. *)
Definition try_except {A} (m : M A) (handler : exn -> option (M A)) : M A :=
  fun w =>
    match m w with
    | (Ok a, w') => (Ok a, w')
    | (Raise e, w') =>
        match handler e with
        | Some h => h w'
        | None => (Raise e, w')
        end
    end.

Notation "'do' x <- m ; k" := (bind m (fun x => k))
  (at level 10, x name, m at level 100, k at level 200).
Notation "m ;; k" := (bind m (fun _ => k))
  (at level 100, k at level 200, right associativity).

Definition of_option {A} (o : option exn) (a : A) : result A :=
  match o with Some e => Raise e | None => Ok a end.

(** ** Module-level constants *)

(** GPIO pins for buttons (A, B, C, D) *)
Definition BUTTONS : list Z := [5; 6; 16; 24].
Definition LABELS : list string := ["A"; "B"; "C"; "D"].
Definition API_URL : string := "https://muses.robr.app/entry".
Definition IMAGE_DIR : string := "images".

(** [inky.BLACK] *)
Definition BLACK : Z := 0.

(** The default of [update_display]'s [saturation] parameter. *)
Definition default_saturation : Q := 8 # 10.

(** ** Library calls *)

(** [list.index(x)]: the first position of [x], [ValueError] without one. *)
Fixpoint index_of (x : Z) (l : list Z) : option nat :=
  match l with
  | [] => None
  | y :: rest =>
      if Z.eqb y x then Some O
      else match index_of x rest with Some i => Some (S i) | None => None end
  end.

Definition list_index (l : list Z) (x : Z) : M nat :=
  match index_of x l with
  | Some i => ret i
  | None => raise ValueError
  end.

(** [l[i]] *)
Definition getitem {A} (l : list A) (i : nat) : M A :=
  match nth_error l i with
  | Some a => ret a
  | None => raise IndexError
  end.

(** [d.get(key, default)]: only a [dict] has the method. *)
Definition py_get (d : json) (key : string) (default : json) : M json :=
  match d with
  | JObj fields =>
      ret (match assoc key fields with Some v => v | None => default end)
  | _ => raise AttributeError
  end.

(** [response.raise_for_status()]: an [HTTPError] for 4xx and 5xx. *)
Definition raise_for_status (r : response) : M unit :=
  if ((400 <=? status_code r) && (status_code r <? 600))%Z
  then raise (RequestException (HTTPError (status_code r)))
  else ret tt.

(** [response.json()]: requests raises its own [JSONDecodeError], a
    [RequestException], on a body that is no JSON. *)
Definition response_json (r : response) : M json :=
  match body_json r with
  | Some v => ret v
  | None => raise (RequestException JSONDecodeError)
  end.

(** Stable insertion into a list sorted by decreasing key: the new element
    comes from the left of all the others, so it stays before its equals. *)
Fixpoint insert_desc (x : Z * string) (l : list (Z * string)) : list (Z * string) :=
  match l with
  | [] => [x]
  | y :: rest => if (fst x <? fst y)%Z then y :: insert_desc x rest else x :: l
  end.

(** [sorted(..., reverse=True)] on the decorated elements. *)
Definition sorted_reverse (l : list (Z * string)) : list (Z * string) :=
  fold_right insert_desc [] l.

Definition logging (lvl : level) (msg : message) : M unit :=
  fun w => (Ok tt, emit (Log lvl msg) w).

Definition enter (c : call) : M unit :=
  fun w => (Ok tt, emit (Enter c) w).

Section Script.

Variable E : Env.

(** [requests.get(url, timeout=10)].  A value that is no string is turned
    into one by requests and refused as a URL without a scheme. *)
Definition requests_get (url : json) : M response :=
  fun w =>
    match url with
    | JStr s =>
        match http_get E w s with
        | HttpFailed why => (Raise (RequestException why), emit (HttpGet url) w)
        | HttpResponse r => (Ok r, emit (HttpGet url) w)
        end
    | _ => (Raise (RequestException MissingSchema), emit (HttpGet url) w)
    end.

Definition now : M datetime := fun w => (Ok (datetime_now E w), w).

(** [Image.open(BytesIO(data))] *)
Definition Image_open_bytes (data : bytes) : M image :=
  match pil_decode E data with
  | Some img => ret img
  | None => raise OSError
  end.

(** [Image.open(path)] *)
Definition Image_open (path : string) : M image :=
  fun w =>
    match cache_dir w, basename_in IMAGE_DIR path with
    | Some files, Some name =>
        match find_file name files with
        | Some f => Image_open_bytes (f_data f) w
        | None => (Raise OSError, w)
        end
    | _, _ => (Raise OSError, w)
    end.

(** [image.resize(size)] *)
Definition Image_resize (img : image) (size : Z * Z) : M image :=
  match pil_resize E img size with
  | Some r => ret r
  | None => raise ValueError
  end.

(** [image.save(path)].  A save that fails is one that leaves the directory
    as it was: [fs_write_error] stands for a failure before the target is
    opened, and for a failure in the encoder on a target the save created,
    which Pillow removes again.  Pillow opens its target for writing before
    it encodes, so a failure in the encoder on a target that was there
    before leaves that file empty: this third way to fail is not part of
    the model, and what is proved below of the directory after a failed
    save is proved of the first two. *)
Definition Image_save (img : image) (path : string) : M unit :=
  fun w =>
    match fs_write_error E w path with
    | Some e => (Raise e, w)
    | None =>
        match cache_dir w, basename_in IMAGE_DIR path with
        | Some files, Some name =>
            let f := {| f_name := name; f_mtime := fs_clock E w;
                        f_data := pil_encode_png E img |} in
            (Ok tt, {| cache_dir := Some (write_file files f);
                       trace := trace w ++ [FileSaved path] |})
        | _, _ => (Raise OSError, w)
        end
    end.

(** [os.listdir(IMAGE_DIR)] *)
Definition os_listdir : M (list string) :=
  fun w =>
    match cache_dir w with
    | Some files => (Ok (map f_name files), w)
    | None => (Raise OSError, w)
    end.

(** [os.path.getmtime(path)] *)
Definition os_path_getmtime (path : string) : M Z :=
  fun w =>
    match cache_dir w, basename_in IMAGE_DIR path with
    | Some files, Some name =>
        match find_file name files with
        | Some f => (Ok (f_mtime f), w)
        | None => (Raise OSError, w)
        end
    | _, _ => (Raise OSError, w)
    end.

Definition panel_set_image (img : image) (saturation : option Q) : M unit :=
  fun w => (of_option (inky_set_image E w img saturation) tt,
            emit (Panel (SetImage img saturation)) w).

Definition panel_set_border (colour : Z) : M unit :=
  fun w => (of_option (inky_set_border E w colour) tt,
            emit (Panel (SetBorder colour)) w).

Definition panel_show : M unit :=
  fun w => (of_option (inky_show E w) tt, emit (Panel Show) w).

Definition time_sleep (seconds : Z) : M unit :=
  fun w => (Ok tt, emit (Slept seconds) w).

Definition read_edge_events : M (list edge_event) :=
  fun w => (Ok (request_read_edge_events E w), emit GpioRead w).

(** [OFFSETS = [chip.line_offset_from_id(id) for id in BUTTONS]] *)
Definition OFFSETS : list Z := map (chip_line_offset_from_id E) BUTTONS.

(** ** The functions of the script *)

(** Fetch image URL from the API *)
Definition fetch_image_url : M json :=
  try_except
    (do response <- requests_get (JStr API_URL);
     raise_for_status response ;;
     do data <- response_json response;
     do images <- py_get data "images" (JObj []);
     do image_url <- py_get images "small" JNull;
     (if truthy image_url
      then logging INFO (MsgFetchedURL image_url)
      else logging WARNING MsgNoImageURL) ;;
     ret image_url)
    (fun e =>
       if is_RequestException e
       then Some (logging ERROR (MsgErrorFetching e) ;; ret JNull)
       else None).

(** Download an image and save it locally *)
Definition download_image (image_url : json) : M (option string) :=
  if negb (truthy image_url) then ret None
  else
    try_except
      (do response <- requests_get image_url;
       raise_for_status response ;;
       do image <- Image_open_bytes (content response);
       do t <- now;
       let timestamp := strftime t in
       let image_path := os_path_join IMAGE_DIR (timestamp ++ ".png") in
       Image_save image image_path ;;
       logging INFO (MsgSavedNewImage image_path) ;;
       ret (Some image_path))
      (fun e =>
         if is_RequestException e
         then Some (logging ERROR (MsgErrorDownloading e) ;; ret None)
         else Some (logging ERROR (MsgUnexpectedError e) ;; ret None)).

(** The key function of [sorted], applied to each element in turn. *)
Fixpoint decorate (names : list string) : M (list (Z * string)) :=
  match names with
  | [] => ret []
  | x :: rest =>
      do k <- os_path_getmtime (os_path_join IMAGE_DIR x);
      do ks <- decorate rest;
      ret ((k, x) :: ks)
  end.

(** Get the most recent image from the 'images' directory *)
Definition get_latest_saved_image : M (option string) :=
  try_except
    (do listing <- os_listdir;
     do keyed <- decorate (filter (fun f => endswith f ".png") listing);
     let files := map snd (sorted_reverse keyed) in
     match files with
     | first :: _ => ret (Some (os_path_join IMAGE_DIR first))
     | [] => ret None
     end)
    (fun e => Some (logging ERROR (MsgErrorRetrieving e) ;; ret None)).

(** [not image_path] for a path or [None] *)
Definition no_path (image_path : option string) : bool :=
  match image_path with
  | None => true
  | Some p => String.eqb p ""
  end.

(** Display an image on the e-ink screen.  ([enter] marks the call.) *)
Definition update_display (image_path : option string) (saturation : Q) : M unit :=
  enter (Call_update_display image_path) ;;
  match image_path with
  | Some path =>
      if String.eqb path "" then logging WARNING MsgNoValidImage
      else
        try_except
          (do image <- Image_open path;
           do resized_image <- Image_resize image (inky_resolution E);
           try_except
             (panel_set_image resized_image (Some saturation) ;;
              panel_set_border BLACK)
             (fun e =>
                if is_TypeError e
                then Some (panel_set_image resized_image None)
                else None) ;;
           panel_show ;;
           logging INFO (MsgDisplayUpdated path))
          (fun e => Some (logging ERROR (MsgErrorDisplaying e)))
  | None => logging WARNING MsgNoValidImage
  end.

(** Fetch and update the display with a new image or fallback to a saved
    one.  ([enter] marks the call.) *)
Definition refresh_image : M unit :=
  enter Call_refresh_image ;;
  logging INFO MsgRefreshing ;;
  do image_url <- fetch_image_url;
  do image_path <- (if truthy image_url then download_image image_url else ret None);
  do image_path <- (if no_path image_path
                    then logging WARNING MsgFallingBack ;; get_latest_saved_image
                    else ret image_path);
  update_display image_path default_saturation.

(** The body of the listener's [for] loop. *)
Definition handle_event (ev : edge_event) : M unit :=
  do index <- list_index OFFSETS (line_offset ev);
  do gpio_number <- getitem BUTTONS index;
  do label <- getitem LABELS index;
  logging INFO (MsgButtonPress gpio_number label) ;;
  if String.eqb label "B"
  then logging INFO MsgButtonB ;; refresh_image
  else ret tt.

Fixpoint for_each_event (events : list edge_event) : M unit :=
  match events with
  | [] => ret tt
  | ev :: rest => handle_event ev ;; for_each_event rest
  end.

(** [while True] of the listener, for [rounds] blocking reads. *)
Fixpoint listen (rounds : nat) : M unit :=
  match rounds with
  | O => ret tt
  | S n =>
      do events <- read_edge_events;
      for_each_event events ;;
      listen n
  end.

(** Continuously listens for button presses *)
Definition button_listener (rounds : nat) : M unit :=
  logging INFO MsgListenerStarted ;;
  listen rounds.

(** time until next top of the hour *)
Definition seconds_until_next_hour (t : datetime) : Z :=
  (60 - minute t) * 60 - second t.

(** One turn of the scheduler's loop. *)
Definition auto_refresh_cycle : M unit :=
  do t <- now;
  logging INFO (MsgSleeping (seconds_until_next_hour t)) ;;
  time_sleep (seconds_until_next_hour t) ;;
  logging INFO MsgTopOfHour ;;
  refresh_image.

(** Automatically refresh the display on the hour, for [cycles] turns of
    its [while True]. *)
Fixpoint auto_refresh (cycles : nat) : M unit :=
  match cycles with
  | O => ret tt
  | S n => auto_refresh_cycle ;; auto_refresh n
  end.

End Script.

(** * The vocabulary of the statements *)

(** ** Reading a trace *)

(** The paths written by [image.save]. *)
Definition saved (d : list event) : list string :=
  flat_map (fun e => match e with FileSaved p => [p] | _ => [] end) d.

(** The arguments of the calls of [update_display]. *)
Definition renders (d : list event) : list (option string) :=
  flat_map (fun e => match e with Enter (Call_update_display p) => [p] | _ => [] end) d.

(** The calls of [refresh_image]. *)
Definition refreshes (d : list event) : list unit :=
  flat_map (fun e => match e with Enter Call_refresh_image => [tt] | _ => [] end) d.

(** The calls that reached the panel. *)
Definition panel_calls (d : list event) : list panel_call :=
  flat_map (fun e => match e with Panel c => [c] | _ => [] end) d.

(** The warnings logged. *)
Definition warnings (d : list event) : list message :=
  flat_map (fun e => match e with Log WARNING m => [m] | _ => [] end) d.

(** The durations slept. *)
Definition sleeps (d : list event) : list Z :=
  flat_map (fun e => match e with Slept s => [s] | _ => [] end) d.

(** [extend w d]: the world [w] after the events [d], its directory untouched. *)
Definition extend (w : World) (d : list event) : World :=
  {| cache_dir := cache_dir w; trace := trace w ++ d |}.

(** The world in which [refresh_image] calls the fetcher. *)
Definition started (w : World) : World :=
  extend w [Enter Call_refresh_image; Log INFO MsgRefreshing].

(** Events that are log lines or requests only: nothing written, nothing
    rendered, nothing entered. *)
Definition chatter (e : event) : bool :=
  match e with Log _ _ | HttpGet _ => true | _ => false end.

(** What [update_display] leaves after its entry: log lines and panel calls. *)
Definition display_event (e : event) : bool :=
  match e with Log _ _ | Panel _ => true | _ => false end.

(** Everything but an entry of [refresh_image], a sleep and a read of the
    GPIO lines: what one refresh may leave after its entry. *)
Definition inner_event (e : event) : bool :=
  match e with
  | Enter Call_refresh_image | Slept _ | GpioRead => false
  | _ => true
  end.

(** [adds Q w w']: the trace of [w'] is the trace of [w] followed by events
    of the class [Q]. *)
Definition adds (Q : event -> bool) (w w' : World) : Prop :=
  exists d, trace w' = trace w ++ d /\ forallb Q d = true.

(** [respects R m]: the relation [R] holds between the world before and the
    world after every run of [m], whether it returns or raises. *)
Definition respects (R : World -> World -> Prop) {A} (m : M A) : Prop :=
  forall w, R w (snd (m w)).

(** ** The directory *)

Definition files_of (w : World) : list file :=
  match cache_dir w with Some files => files | None => [] end.

(** A file with the image extension. *)
Definition is_png (f : file) : bool := endswith (f_name f) ".png".

(** The modification time [os.path.getmtime] reads for a listed name. *)
Definition mtime_of (files : list file) (name : string) : Z :=
  match find_file name files with
  | Some f => f_mtime f
  | None => 0
  end.

(** The first element whose key no other exceeds. *)
Fixpoint first_max (l : list (Z * string)) : option (Z * string) :=
  match l with
  | [] => None
  | x :: rest =>
      match first_max rest with
      | Some y => if (fst x <? fst y)%Z then Some y else Some x
      | None => Some x
      end
  end.

(** The decorated list [sorted] works on. *)
Definition keyed (files : list file) : list (Z * string) :=
  map (fun n => (mtime_of files n, n)) (map f_name (filter is_png files)).

Definition path_of (m : Z * string) : string := os_path_join IMAGE_DIR (snd m).

Definition known (before : list file) (n : string) : bool :=
  existsb (String.eqb n) (map f_name before).

(** The names of [after] that [before] does not have: the new files. *)
Definition new_names (before after : list file) : list string :=
  filter (fun n => negb (known before n)) (map f_name after).

(** The name and the path [download_image] writes at world [w]: the clock is
    read after the request. *)
Definition target_name (E : Env) (u : json) (w : World) : string :=
  strftime (datetime_now E (extend w [HttpGet u])) ++ ".png".

Definition target_path (E : Env) (u : json) (w : World) : string :=
  os_path_join IMAGE_DIR (target_name E u w).

(** [cache_kept w w']: every record of the directory of [w] still has a
    record of its name in the directory of [w'], and that record is the
    same one unless [image.save] wrote to its path in between. *)
Definition cache_kept (w w' : World) : Prop :=
  exists d,
    trace w' = trace w ++ d /\
    forall files,
      cache_dir w = Some files ->
      exists files',
        cache_dir w' = Some files' /\
        forall f, In f files ->
          exists f',
            In f' files' /\ f_name f' = f_name f /\
            (f' = f \/ In (FileSaved (os_path_join IMAGE_DIR (f_name f))) d).

(** Operations that do not write leave the directory as it is. *)
Definition cache_same (w w' : World) : Prop := cache_dir w' = cache_dir w.

(** A directory has no two entries of one name. *)
Definition well_formed (w : World) : Prop := NoDup (map f_name (files_of w)).

Definition stays_well_formed (w w' : World) : Prop := well_formed w -> well_formed w'.

(** ** JSON and buttons *)

Definition is_object (v : json) : bool :=
  match v with JObj _ => true | _ => false end.

(** An edge event on a line. *)
Definition press (line : Z) : edge_event := {| line_offset := line; timestamp_ns := 0 |}.

(** The events the listener's lookup maps to index 1, the label ["B"]. *)
Definition labelled_B (offsets : list Z) (ev : edge_event) : bool :=
  match index_of (line_offset ev) offsets with
  | Some 1%nat => true
  | _ => false
  end.

(** ** Time to the hour *)

(** Microseconds from [t] back to the last hour boundary, and on to the
    next one (minute 0, second 0, microsecond 0 of the following hour). *)
Definition us_into_hour (t : datetime) : Z :=
  (minute t * 60 + second t) * 1000000 + microsecond t.

Definition us_to_next_hour (t : datetime) : Z :=
  3600 * 1000000 - us_into_hour t.

(** The fields of a [datetime] the scheduler reads are in range. *)
Definition valid_time (t : datetime) : Prop :=
  (0 <= minute t < 60 /\ 0 <= second t < 60 /\ 0 <= microsecond t < 1000000)%Z.

(** ** Concrete environments and worlds

    [frame_env api img t sat_error] is a frame whose metadata endpoint
    answers [api], whose image endpoint answers [img], whose clock reads
    [t], whose panel answers [sat_error] to an image set with saturation,
    and whose chip numbers its lines like its pins. *)

Definition picture : image := {| im_size := (800, 480); im_pixels := [] |}.

Definition frame_env (api img : http_outcome) (t : datetime) (sat_error : option exn) : Env :=
  {| http_get := fun _ url => if String.eqb url API_URL then api else img;
     datetime_now := fun _ => t;
     fs_clock := fun w => 1000 + Z.of_nat (List.length (trace w));
     fs_write_error := fun _ _ => None;
     pil_decode := fun data => match data with [] => None | _ => Some picture end;
     pil_encode_png := fun _ => list_byte_of_string "png";
     pil_resize := fun i _ => Some i;
     inky_resolution := (800, 480);
     inky_set_image := fun _ _ sat => match sat with Some _ => sat_error | None => None end;
     inky_set_border := fun _ _ => None;
     inky_show := fun _ => None;
     chip_line_offset_from_id := fun id => id;
     request_read_edge_events := fun _ => [] |}.

Definition just_before_eleven : datetime :=
  {| year := 2024; month := 3; day := 9;
     hour := 10; minute := 59; second := 59; microsecond := 900000 |}.

Definition on_the_hour : datetime :=
  {| year := 2024; month := 3; day := 9;
     hour := 11; minute := 0; second := 0; microsecond := 0 |}.

Definition api_ok : http_outcome :=
  HttpResponse
    {| status_code := 200;
       body_json := Some (JObj [("images", JObj [("small", JStr "https://muses.robr.app/i.png")])]);
       content := [] |}.

Definition api_images_not_object : http_outcome :=
  HttpResponse
    {| status_code := 200;
       body_json := Some (JObj [("images", JStr "none yet")]);
       content := [] |}.

Definition img_ok : http_outcome :=
  HttpResponse {| status_code := 200; body_json := None;
                  content := list_byte_of_string "raw" |}.

Definition online : Env := frame_env api_ok img_ok just_before_eleven None.

Definition offline : Env :=
  frame_env (HttpFailed TimedOut) (HttpFailed TimedOut) just_before_eleven None.

Definition images_not_object : Env :=
  frame_env api_images_not_object img_ok just_before_eleven None.

Definition no_saturation : Env :=
  frame_env api_ok img_ok just_before_eleven (Some TypeError).

Definition empty_cache : World := {| cache_dir := Some []; trace := [] |}.

Definition old_file (name : string) (mtime : Z) : file :=
  {| f_name := name; f_mtime := mtime; f_data := list_byte_of_string "old" |}.

(** A cache that already holds a file named after the current second. *)
Definition same_second_cache : World :=
  {| cache_dir := Some [old_file "20240309_105959.png" 1]; trace := [] |}.

Definition one_file_cache : World :=
  {| cache_dir := Some [old_file "20240301_120000.png" 10]; trace := [] |}.

Definition two_files_cache : World :=
  {| cache_dir := Some [old_file "20240301_120000.png" 10;
                        old_file "20240302_120000.png" 20];
     trace := [] |}.

Definition three_files : list file :=
  [old_file "20240301_120000.png" 10; old_file "notes.txt" 99;
   old_file "20240302_120000.png" 20].

(** Two image files of one modification time, listed in either order. *)
Definition tie_listed_a_first : World :=
  {| cache_dir := Some [old_file "a.png" 7; old_file "b.png" 7]; trace := [] |}.

Definition tie_listed_b_first : World :=
  {| cache_dir := Some [old_file "b.png" 7; old_file "a.png" 7]; trace := [] |}.

(** ** Further vocabulary *)

(** The log lines of a trace, in order. *)
Definition logged (d : list event) : list (level * message) :=
  flat_map (fun e => match e with Log lvl m => [(lvl, m)] | _ => [] end) d.

(** The requests of a trace, in order. *)
Definition requested (d : list event) : list json :=
  flat_map (fun e => match e with HttpGet u => [u] | _ => [] end) d.

(** A status [raise_for_status] lets through. *)
Definition status_passes (r : response) : bool :=
  negb ((400 <=? status_code r)%Z && (status_code r <? 600)%Z).

(** The fields [strftime] prints are in the range of their width (a year of
    four digits, as every year from 1000 on is printed). *)
Definition stamp_in_range (t : datetime) : Prop :=
  (1000 <= year t < 10000 /\ 0 <= month t < 100 /\ 0 <= day t < 100 /\
   0 <= hour t < 100 /\ 0 <= minute t < 100 /\ 0 <= second t < 100)%Z.

(** The fields of a time down to the second, most significant first. *)
Definition stamp_fields (t : datetime) : list Z :=
  [year t; month t; day t; hour t; minute t; second t].

(** Lexicographic comparison of lists of integers. *)
Fixpoint lex_compare (a b : list Z) : comparison :=
  match a, b with
  | [], [] => Eq
  | [], _ :: _ => Lt
  | _ :: _, [] => Gt
  | x :: a', y :: b' =>
      match (x ?= y)%Z with
      | Eq => lex_compare a' b'
      | c => c
      end
  end.

(** ** Further concrete environments *)

(** A response whose [images.small] is the empty string. *)
Definition api_empty_small : http_outcome :=
  HttpResponse
    {| status_code := 200;
       body_json := Some (JObj [("images", JObj [("small", JStr "")])]);
       content := [] |}.

Definition empty_small : Env :=
  frame_env api_empty_small img_ok just_before_eleven None.

(** The image endpoint answers 404. *)
Definition img_not_found : http_outcome :=
  HttpResponse {| status_code := 404; body_json := None; content := [] |}.

Definition image_missing : Env :=
  frame_env api_ok img_not_found just_before_eleven None.



(** A panel whose image set fails with an error that is no [TypeError]. *)
Definition panel_broken : Env :=
  frame_env api_ok img_ok just_before_eleven (Some OSError).

(** A chip on which nothing is ever pressed is [online]; one that reports
    the presses [events] at every read: *)
Definition pressing (events : list edge_event) : Env :=
  {| http_get := http_get online;
     datetime_now := datetime_now online;
     fs_clock := fs_clock online;
     fs_write_error := fs_write_error online;
     pil_decode := pil_decode online;
     pil_encode_png := pil_encode_png online;
     pil_resize := pil_resize online;
     inky_resolution := inky_resolution online;
     inky_set_image := inky_set_image online;
     inky_set_border := inky_set_border online;
     inky_show := inky_show online;
     chip_line_offset_from_id := chip_line_offset_from_id online;
     request_read_edge_events := fun _ => events |}.

(** The environment [E] with a chip that reports the presses [events] at
    every read: *)
Definition listening (E : Env) (events : list edge_event) : Env :=
  {| http_get := http_get E;
     datetime_now := datetime_now E;
     fs_clock := fs_clock E;
     fs_write_error := fs_write_error E;
     pil_decode := pil_decode E;
     pil_encode_png := pil_encode_png E;
     pil_resize := pil_resize E;
     inky_resolution := inky_resolution E;
     inky_set_image := inky_set_image E;
     inky_set_border := inky_set_border E;
     inky_show := inky_show E;
     chip_line_offset_from_id := chip_line_offset_from_id E;
     request_read_edge_events := fun _ => events |}.

(** * Verification *)

(** ** Paths and names *)

Lemma substring_all (s : string) : substring 0 (String.length s) s = s.
Proof. induction s as [|c s IH]; simpl; [reflexivity | now rewrite IH]. Qed.

Lemma substring_0_0 (s : string) : substring 0 0 s = "".
Proof. destruct s; reflexivity. Qed.

Lemma basename_in_join (name : string) :
  basename_in IMAGE_DIR (os_path_join IMAGE_DIR name) = Some name.
Proof.
  unfold basename_in, os_path_join, IMAGE_DIR. simpl.
  rewrite substring_0_0. simpl.
  rewrite Nat.sub_0_r. now rewrite substring_all.
Qed.

Lemma os_path_join_inj (a b : string) :
  os_path_join IMAGE_DIR a = os_path_join IMAGE_DIR b -> a = b.
Proof.
  intros H. apply (f_equal (basename_in IMAGE_DIR)) in H.
  rewrite !basename_in_join in H. congruence.
Qed.

(** ** Extending a world *)

Arguments emit : simpl never.
Arguments extend : simpl never.

Lemma emit_extend e w : emit e w = extend w [e].
Proof. reflexivity. Qed.

Lemma extend_extend w a b : extend (extend w a) b = extend w (a ++ b).
Proof. unfold extend; simpl. now rewrite app_assoc. Qed.

Lemma extend_nil w : extend w [] = w.
Proof. destruct w; unfold extend; simpl. now rewrite app_nil_r. Qed.

Lemma cache_dir_extend w d : cache_dir (extend w d) = cache_dir w.
Proof. reflexivity. Qed.

Lemma trace_extend w d : trace (extend w d) = trace w ++ d.
Proof. reflexivity. Qed.

Ltac tidy := rewrite ?emit_extend, ?extend_extend; simpl app.

Lemma chatter_silent d :
  forallb chatter d = true ->
  saved d = [] /\ renders d = [] /\ refreshes d = [] /\ panel_calls d = [] /\ sleeps d = [].
Proof.
  induction d as [|e d IH]; simpl; [tauto|].
  rewrite andb_true_iff. intros [He Hd].
  destruct (IH Hd) as (-> & -> & -> & -> & ->).
  destruct e; try discriminate He; repeat split; reflexivity.
Qed.

(** ** The fetcher, case by case *)

Section Fetch.

Variable E : Env.

(** What [fetch_image_url] does, exhaustively: it returns a URL it logged,
    or a false value after a warning, or [None] after an error, or it lets
    an [AttributeError] escape. *)
Lemma fetch_image_url_cases w :
  (exists u, truthy u = true /\
     fetch_image_url E w = (Ok u, extend w [HttpGet (JStr API_URL); Log INFO (MsgFetchedURL u)])) \/
  (exists u, truthy u = false /\
     fetch_image_url E w = (Ok u, extend w [HttpGet (JStr API_URL); Log WARNING MsgNoImageURL])) \/
  (exists e,
     fetch_image_url E w = (Ok JNull, extend w [HttpGet (JStr API_URL); Log ERROR (MsgErrorFetching e)])) \/
  fetch_image_url E w = (Raise AttributeError, extend w [HttpGet (JStr API_URL)]).
Proof.
  unfold fetch_image_url, try_except, bind, requests_get, raise_for_status,
    response_json, py_get, logging, ret, raise.
  destruct (http_get E w API_URL) as [why|r]; simpl.
  { right; right; left; eexists. tidy. reflexivity. }
  destruct ((400 <=? status_code r)%Z && (status_code r <? 600)%Z); simpl.
  { right; right; left; eexists. tidy. reflexivity. }
  destruct (body_json r) as [data|]; simpl.
  2:{ right; right; left; eexists. tidy. reflexivity. }
  destruct data; simpl; try (right; right; right; tidy; reflexivity).
  destruct (assoc "images" fields) as [images|]; simpl.
  - destruct images; simpl; try (right; right; right; tidy; reflexivity).
    match goal with |- context [truthy ?u] => destruct (truthy u) eqn:Hu end; simpl;
      tidy; [left | right; left]; eexists; split; eauto.
  - right; left. exists JNull. tidy. split; reflexivity.
Qed.

End Fetch.

(** ** Running the monad

    Every library call but [image.save] changes the world the same way
    whether it returns or raises, so a [bind] can be run by looking at the
    result alone. *)

Lemma bind_split {A B} (m : M A) (k : A -> M B) w :
  bind m k w =
  match fst (m w) with
  | Ok a => k a (snd (m w))
  | Raise e => (Raise e, snd (m w))
  end.
Proof. unfold bind. destruct (m w) as [[a|e] w']; reflexivity. Qed.

Lemma try_except_split {A} (m : M A) handler w :
  try_except m handler w =
  match fst (m w) with
  | Ok a => (Ok a, snd (m w))
  | Raise e =>
      match handler e with
      | Some h => h (snd (m w))
      | None => (Raise e, snd (m w))
      end
  end.
Proof. unfold try_except. destruct (m w) as [[a|e] w']; reflexivity. Qed.

Lemma ret_run {A} (a : A) w : ret a w = (Ok a, w).
Proof. reflexivity. Qed.

Lemma raise_run {A} e w : @raise A e w = (Raise e, w).
Proof. reflexivity. Qed.

Lemma logging_run lvl msg w : logging lvl msg w = (Ok tt, extend w [Log lvl msg]).
Proof. reflexivity. Qed.

Lemma enter_run c w : enter c w = (Ok tt, extend w [Enter c]).
Proof. reflexivity. Qed.

Lemma snd_raise_for_status r w : snd (raise_for_status r w) = w.
Proof. unfold raise_for_status. now destruct (_ && _). Qed.

Lemma snd_response_json r w : snd (response_json r w) = w.
Proof. unfold response_json. now destruct (body_json r). Qed.

Lemma snd_py_get d key default w : snd (py_get d key default w) = w.
Proof. now destruct d. Qed.

Lemma snd_list_index l x w : snd (list_index l x w) = w.
Proof. unfold list_index. now destruct (index_of x l). Qed.

Lemma snd_getitem {A} (l : list A) i w : snd (getitem l i w) = w.
Proof. unfold getitem. now destruct (nth_error l i). Qed.

Section Calls.

Variable E : Env.

Lemma snd_requests_get u w : snd (requests_get E u w) = extend w [HttpGet u].
Proof.
  unfold requests_get. destruct u; try reflexivity.
  now destruct (http_get E w s).
Qed.

Lemma now_run w : now E w = (Ok (datetime_now E w), w).
Proof. reflexivity. Qed.

Lemma snd_Image_open_bytes data w : snd (Image_open_bytes E data w) = w.
Proof. unfold Image_open_bytes. now destruct (pil_decode E data). Qed.

Lemma snd_Image_open path w : snd (Image_open E path w) = w.
Proof.
  unfold Image_open.
  destruct (cache_dir w), (basename_in IMAGE_DIR path); try reflexivity.
  destruct (find_file s l); [apply snd_Image_open_bytes | reflexivity].
Qed.

Lemma snd_Image_resize img size w : snd (Image_resize E img size w) = w.
Proof. unfold Image_resize. now destruct (pil_resize E img size). Qed.

Lemma snd_os_listdir w : snd (os_listdir w) = w.
Proof. unfold os_listdir. now destruct (cache_dir w). Qed.

Lemma snd_os_path_getmtime path w : snd (os_path_getmtime path w) = w.
Proof.
  unfold os_path_getmtime.
  destruct (cache_dir w), (basename_in IMAGE_DIR path); try reflexivity.
  now destruct (find_file s l).
Qed.

Lemma snd_panel_set_image img sat w :
  snd (panel_set_image E img sat w) = extend w [Panel (SetImage img sat)].
Proof. reflexivity. Qed.

Lemma snd_panel_set_border colour w :
  snd (panel_set_border E colour w) = extend w [Panel (SetBorder colour)].
Proof. reflexivity. Qed.

Lemma snd_panel_show w : snd (panel_show E w) = extend w [Panel Show].
Proof. reflexivity. Qed.

Lemma time_sleep_run s w : time_sleep s w = (Ok tt, extend w [Slept s]).
Proof. reflexivity. Qed.

Lemma read_edge_events_run w :
  read_edge_events E w = (Ok (request_read_edge_events E w), extend w [GpioRead]).
Proof. reflexivity. Qed.

(** [image.save] either raises and writes nothing, or writes its file. *)
Lemma Image_save_cases img name w :
  (exists e, Image_save E img (os_path_join IMAGE_DIR name) w = (Raise e, w)) \/
  (exists files,
     cache_dir w = Some files /\
     Image_save E img (os_path_join IMAGE_DIR name) w =
       (Ok tt,
        {| cache_dir :=
             Some (write_file files
                     {| f_name := name; f_mtime := fs_clock E w;
                        f_data := pil_encode_png E img |});
           trace := trace w ++ [FileSaved (os_path_join IMAGE_DIR name)] |})).
Proof.
  unfold Image_save. rewrite basename_in_join.
  destruct (fs_write_error E w _); [left; eexists; reflexivity|].
  destruct (cache_dir w) as [files|]; [|left; eexists; reflexivity].
  right. exists files. split; reflexivity.
Qed.

End Calls.

Create Rewrite HintDb run.

#[global] Hint Rewrite @ret_run @raise_run logging_run enter_run
  snd_raise_for_status snd_response_json snd_py_get snd_list_index @snd_getitem
  snd_requests_get now_run snd_Image_open_bytes snd_Image_open snd_Image_resize
  snd_os_listdir snd_os_path_getmtime snd_panel_set_image snd_panel_set_border
  snd_panel_show time_sleep_run read_edge_events_run
  extend_extend cache_dir_extend : run.

Ltac run := repeat (rewrite ?bind_split, ?try_except_split; autorewrite with run;
                    cbn [fst snd app]).

(** ** The cache, case by case *)

Arguments os_path_join : simpl never.
Arguments basename_in : simpl never.
Arguments strftime : simpl never.

Section Cache.

Variable E : Env.

Lemma download_image_absent u w :
  truthy u = false -> download_image E u w = (Ok None, w).
Proof. intros H. unfold download_image. now rewrite H. Qed.

(** [download_image] on a URL either fails, logging one error and leaving
    the directory alone, or writes exactly the file it returns. *)
Lemma download_image_cases u w :
  truthy u = true ->
  (exists m,
     download_image E u w = (Ok None, extend w [HttpGet u; Log ERROR m])) \/
  (exists files img,
     cache_dir w = Some files /\
     download_image E u w =
       (Ok (Some (target_path E u w)),
        {| cache_dir :=
             Some (write_file files
                     {| f_name := target_name E u w;
                        f_mtime := fs_clock E (extend w [HttpGet u]);
                        f_data := pil_encode_png E img |});
           trace := trace w ++ [HttpGet u; FileSaved (target_path E u w);
                                Log INFO (MsgSavedNewImage (target_path E u w))] |})).
Proof.
  intros Hu. unfold download_image. rewrite Hu.
  change (negb true) with false. cbv beta iota.
  assert (Hcaught : forall e w',
    match (if is_RequestException e
           then Some (logging ERROR (MsgErrorDownloading e) ;; ret (A:=option string) None)
           else Some (logging ERROR (MsgUnexpectedError e) ;; ret None))
    with Some h => h (extend w' [HttpGet u]) | None => (Raise e, extend w' [HttpGet u]) end
    = (Ok None, extend w' [HttpGet u; Log ERROR
                 (if is_RequestException e then MsgErrorDownloading e
                  else MsgUnexpectedError e)])).
  { intros e w'. destruct (is_RequestException e); run; reflexivity. }
  run.
  destruct (fst (requests_get E u w)) as [r|e]; [|left; eexists; apply Hcaught].
  run.
  destruct (fst (raise_for_status r _)) as [[]|e]; [|left; eexists; apply Hcaught].
  run.
  destruct (fst (Image_open_bytes E (content r) _)) as [img|e];
    [|left; eexists; apply Hcaught].
  run. fold (target_name E u w). fold (target_path E u w).
  destruct (Image_save_cases E img (target_name E u w) (extend w [HttpGet u]))
    as [[e He]|(files & Hc & Hs)]; fold (target_path E u w) in *; rewrite ?He, ?Hs;
    cbn [fst snd].
  - left; eexists; apply Hcaught.
  - right. exists files, img. split; [exact Hc|].
    run. unfold extend; cbn [cache_dir trace]. rewrite <- !app_assoc. reflexivity.
Qed.

End Cache.

(** ** The most recent cached image *)

Lemma hd_insert_desc x l :
  hd_error (insert_desc x l) =
  match hd_error l with
  | Some y => if (fst x <? fst y)%Z then Some y else Some x
  | None => Some x
  end.
Proof. destruct l as [|y l]; simpl; [reflexivity|]. now destruct (fst x <? fst y)%Z. Qed.

(** [files[0]] of the sorted list is the first newest element. *)
Lemma hd_sorted_reverse l : hd_error (sorted_reverse l) = first_max l.
Proof.
  induction l as [|x l IH]; simpl; [reflexivity|].
  now rewrite hd_insert_desc, IH.
Qed.

Lemma first_max_None l : first_max l = None -> l = [].
Proof.
  destruct l as [|x l]; simpl; [reflexivity|].
  destruct (first_max l); [destruct (fst x <? fst p)%Z|]; discriminate.
Qed.

(** The first newest element splits the list: nothing before it is as new,
    nothing after it is newer. *)
Lemma first_max_split l m :
  first_max l = Some m ->
  exists before after,
    l = before ++ m :: after /\
    (forall y, In y before -> (fst y < fst m)%Z) /\
    (forall y, In y after -> (fst y <= fst m)%Z).
Proof.
  revert m. induction l as [|x l IH]; simpl; intros m H; [discriminate|].
  destruct (first_max l) as [y|] eqn:Hl.
  - destruct (IH y eq_refl) as (b & a & -> & Hb & Ha).
    destruct (fst x <? fst y)%Z eqn:Hlt; inversion H; subst m; clear H.
    + apply Z.ltb_lt in Hlt. exists (x :: b), a. repeat split; auto.
      intros z [<-|Hz]; auto.
    + apply Z.ltb_ge in Hlt. exists [], (b ++ y :: a). repeat split; auto.
      * intros z [].
      * intros z Hz. apply in_app_or in Hz. destruct Hz as [Hz|[<-|Hz]].
        -- specialize (Hb z Hz). lia.
        -- exact Hlt.
        -- specialize (Ha z Hz). lia.
  - inversion H; subst m. apply first_max_None in Hl. subst l.
    exists [], []. repeat split; auto; intros z [].
Qed.

Lemma find_file_name name files f : find_file name files = Some f -> f_name f = name.
Proof.
  induction files as [|g files IH]; simpl; [discriminate|].
  destruct (String.eqb (f_name g) name) eqn:Hg; [|exact IH].
  intros [= <-]. now apply String.eqb_eq.
Qed.

Lemma find_file_In name files f : find_file name files = Some f -> In f files.
Proof.
  induction files as [|g files IH]; simpl; [discriminate|].
  destruct (String.eqb (f_name g) name); [intros [= <-]; now left | right; auto].
Qed.

Lemma find_file_listed files name :
  In name (map f_name files) -> exists f, find_file name files = Some f.
Proof.
  induction files as [|g files IH]; simpl; [tauto|].
  destruct (String.eqb (f_name g) name) eqn:Hg; [eexists; reflexivity|].
  intros [H|H]; [|auto]. apply String.eqb_neq in Hg. contradiction.
Qed.

(** In a directory, where no two entries share a name, a name finds its
    entry. *)
Lemma find_file_NoDup files f :
  NoDup (map f_name files) -> In f files -> find_file (f_name f) files = Some f.
Proof.
  induction files as [|g files IH]; simpl; [tauto|].
  intros Hnd [->|Hin]; inversion Hnd as [|? ? Hnot Hnd']; subst.
  - now rewrite String.eqb_refl.
  - destruct (String.eqb (f_name g) (f_name f)) eqn:Hg; [|auto].
    apply String.eqb_eq in Hg. exfalso. apply Hnot. rewrite Hg.
    now apply in_map.
Qed.

Lemma snd_decorate names w : snd (decorate names w) = w.
Proof.
  induction names as [|x names IH]; simpl; [reflexivity|].
  run. destruct (fst (os_path_getmtime _ w)); [|reflexivity].
  run. rewrite IH. destruct (fst (decorate names w)); reflexivity.
Qed.

(** The key function succeeds on every listed name. *)
Lemma decorate_listed files names w :
  cache_dir w = Some files ->
  (forall n, In n names -> In n (map f_name files)) ->
  decorate names w = (Ok (map (fun n => (mtime_of files n, n)) names), w).
Proof.
  intros Hc. induction names as [|x names IH]; intros Hin; simpl; [reflexivity|].
  assert (Hx : os_path_getmtime (os_path_join IMAGE_DIR x) w = (Ok (mtime_of files x), w)).
  { unfold os_path_getmtime, mtime_of. rewrite Hc, basename_in_join.
    destruct (find_file_listed files x) as [f ->]; [apply Hin; now left | reflexivity]. }
  rewrite bind_split, Hx. cbn [fst snd].
  rewrite bind_split, IH by (intros n Hn; apply Hin; now right).
  reflexivity.
Qed.

Lemma filter_map_names files :
  filter (fun n => endswith n ".png") (map f_name files) = map f_name (filter is_png files).
Proof.
  induction files as [|f files IH]; simpl; [reflexivity|].
  unfold is_png at 1. destruct (endswith (f_name f) ".png"); simpl; now rewrite IH.
Qed.

(** [get_latest_saved_image] on a readable directory: the first newest of
    the [.png] entries, and an untouched world. *)
Lemma get_latest_saved_image_readable files w :
  cache_dir w = Some files ->
  get_latest_saved_image w = (Ok (option_map path_of (first_max (keyed files))), w).
Proof.
  intros Hc. unfold get_latest_saved_image.
  rewrite try_except_split, bind_split.
  assert (Hl : os_listdir w = (Ok (map f_name files), w)).
  { unfold os_listdir. now rewrite Hc. }
  rewrite Hl. cbn [fst snd]. rewrite bind_split, filter_map_names.
  rewrite (decorate_listed files) by
    (auto; intros n Hn; apply in_map_iff in Hn; destruct Hn as (f & <- & Hf);
     apply in_map; apply filter_In in Hf; tauto).
  cbn [fst snd]. fold (keyed files).
  rewrite <- hd_sorted_reverse.
  destruct (sorted_reverse (keyed files)) as [|[k n] rest]; reflexivity.
Qed.

(** On a directory that cannot be read it logs the error and has no image. *)
Lemma get_latest_saved_image_unreadable w :
  cache_dir w = None ->
  get_latest_saved_image w =
    (Ok None, extend w [Log ERROR (MsgErrorRetrieving OSError)]).
Proof.
  intros Hc. unfold get_latest_saved_image.
  rewrite try_except_split, bind_split.
  assert (Hl : os_listdir w = (Raise OSError, w)).
  { unfold os_listdir. now rewrite Hc. }
  rewrite Hl. cbn [fst snd]. run. reflexivity.
Qed.

(** ** The renderer, case by case *)

Lemma display_silent d :
  forallb display_event d = true ->
  saved d = [] /\ renders d = [] /\ refreshes d = [] /\ sleeps d = [].
Proof.
  induction d as [|e d IH]; simpl; [tauto|].
  rewrite andb_true_iff. intros [He Hd].
  destruct (IH Hd) as (-> & -> & -> & ->).
  destruct e; try discriminate He; repeat split; reflexivity.
Qed.

Section Render.

Variable E : Env.

(** [update_display] always returns.  Without a path it logs its one
    warning and nothing reaches the panel; with a path it logs no warning. *)
Lemma update_display_cases p s w :
  exists d,
    update_display E p s w = (Ok tt, extend w (Enter (Call_update_display p) :: d)) /\
    forallb display_event d = true /\
    (if no_path p then d = [Log WARNING MsgNoValidImage] else warnings d = []).
Proof.
  unfold update_display, no_path.
  destruct p as [path|]; [destruct (String.eqb path "")|]; run;
    try (eexists; split; [reflexivity | split; reflexivity]).
  destruct (fst (Image_open E path _)) as [img|e]; run;
    try (eexists; split; [reflexivity | split; reflexivity]).
  destruct (fst (Image_resize E img _ _)) as [resized|e]; run;
    try (eexists; split; [reflexivity | split; reflexivity]).
  destruct (fst (panel_set_image E resized (Some s) _)) as [[]|e]; run.
  - destruct (fst (panel_set_border E BLACK _)) as [[]|e]; run.
    + destruct (fst (panel_show E _)) as [[]|e]; run;
        eexists; (split; [reflexivity | split; reflexivity]).
    + destruct (is_TypeError e); run.
      * destruct (fst (panel_set_image E resized None _)) as [[]|e']; run;
          [destruct (fst (panel_show E _)) as [[]|e']; run|];
          eexists; (split; [reflexivity | split; reflexivity]).
      * eexists; (split; [reflexivity | split; reflexivity]).
  - destruct (is_TypeError e); run.
    + destruct (fst (panel_set_image E resized None _)) as [[]|e']; run;
        [destruct (fst (panel_show E _)) as [[]|e']; run|];
        eexists; (split; [reflexivity | split; reflexivity]).
    + eexists; (split; [reflexivity | split; reflexivity]).
Qed.


End Render.

(** ** Names in the directory *)

Lemma known_In before n : known before n = true <-> In n (map f_name before).
Proof.
  unfold known. rewrite existsb_exists. split.
  - intros (x & Hx & Heq). apply String.eqb_eq in Heq. now subst.
  - intros H. exists n. split; [exact H | apply String.eqb_refl].
Qed.

Lemma find_file_None name files :
  find_file name files = None <-> ~ In name (map f_name files).
Proof.
  split.
  - intros H Hin. destruct (find_file_listed files name Hin) as [f Hf]. congruence.
  - intros H. destruct (find_file name files) as [f|] eqn:Hf; [|reflexivity].
    exfalso. apply H. rewrite <- (find_file_name _ _ _ Hf).
    apply in_map. eapply find_file_In; eauto.
Qed.

Lemma write_file_new files f :
  find_file (f_name f) files = None -> write_file files f = files ++ [f].
Proof.
  induction files as [|g files IH]; simpl; [reflexivity|].
  destruct (String.eqb (f_name g) (f_name f)); [discriminate|].
  intros H. now rewrite IH.
Qed.

Lemma write_file_names_old files f g :
  find_file (f_name f) files = Some g ->
  map f_name (write_file files f) = map f_name files.
Proof.
  induction files as [|h files IH]; simpl; [discriminate|].
  destruct (String.eqb (f_name h) (f_name f)) eqn:Hh; simpl.
  - intros _. apply String.eqb_eq in Hh. now rewrite Hh.
  - intros H. now rewrite IH.
Qed.

Lemma find_file_write files f : find_file (f_name f) (write_file files f) = Some f.
Proof.
  induction files as [|g files IH]; simpl.
  - now rewrite String.eqb_refl.
  - destruct (String.eqb (f_name g) (f_name f)) eqn:Hg; simpl.
    + now rewrite String.eqb_refl.
    + now rewrite Hg.
Qed.

Lemma find_file_write_other files f name :
  name <> f_name f -> find_file name (write_file files f) = find_file name files.
Proof.
  intros Hne. induction files as [|g files IH]; simpl.
  - destruct (String.eqb (f_name f) name) eqn:H; [|reflexivity].
    apply String.eqb_eq in H. congruence.
  - destruct (String.eqb (f_name g) (f_name f)) eqn:Hg; simpl.
    + apply String.eqb_eq in Hg.
      destruct (String.eqb (f_name f) name) eqn:H1;
        [apply String.eqb_eq in H1; congruence|].
      destruct (String.eqb (f_name g) name) eqn:H2; [|reflexivity].
      apply String.eqb_eq in H2. congruence.
    + destruct (String.eqb (f_name g) name); [reflexivity | exact IH].
Qed.

Lemma new_names_none before after :
  map f_name after = map f_name before -> new_names before after = [].
Proof.
  unfold new_names. intros ->.
  assert (H : forall l, (forall n, In n l -> known before n = true) ->
                        filter (fun n => negb (known before n)) l = []).
  { induction l as [|n l IH]; simpl; intros Hl; [reflexivity|].
    rewrite (Hl n) by now left. simpl. apply IH. intros; apply Hl; now right. }
  apply H. intros n Hn. now apply known_In.
Qed.

Lemma new_names_one before f :
  find_file (f_name f) before = None ->
  new_names before (before ++ [f]) = [f_name f].
Proof.
  intros Hf. unfold new_names. rewrite map_app, filter_app.
  fold (new_names before before). rewrite new_names_none by reflexivity.
  simpl. destruct (known before (f_name f)) eqn:Hk; [|reflexivity].
  apply known_In in Hk. apply find_file_None in Hf. contradiction.
Qed.

Lemma os_path_join_nonempty name : String.eqb (os_path_join IMAGE_DIR name) "" = false.
Proof. reflexivity. Qed.

(** ** Trace projections over concatenation *)

Lemma saved_app a b : saved (a ++ b) = saved a ++ saved b.
Proof. apply flat_map_app. Qed.

Lemma renders_app a b : renders (a ++ b) = renders a ++ renders b.
Proof. apply flat_map_app. Qed.

Lemma refreshes_app a b : refreshes (a ++ b) = refreshes a ++ refreshes b.
Proof. apply flat_map_app. Qed.

Lemma panel_calls_app a b : panel_calls (a ++ b) = panel_calls a ++ panel_calls b.
Proof. apply flat_map_app. Qed.

Lemma warnings_app a b : warnings (a ++ b) = warnings a ++ warnings b.
Proof. apply flat_map_app. Qed.


(** ** The coordinator *)

Section Refresh.

Variable E : Env.

(** The fetcher leaves the directory alone and adds log lines and its
    request only; it warns at most once. *)
Lemma fetch_image_url_world w :
  exists d,
    snd (fetch_image_url E w) = extend w d /\
    forallb chatter d = true /\
    (warnings d = [] \/ warnings d = [MsgNoImageURL]).
Proof.
  destruct (fetch_image_url_cases E w)
    as [(u & _ & ->)|[(u & _ & ->)|[(e & ->)| ->]]];
    eexists; (split; [reflexivity|]); split; auto.
Qed.

Lemma refresh_image_start w :
  refresh_image E w =
  bind (fetch_image_url E)
    (fun image_url =>
       do image_path <- (if truthy image_url then download_image E image_url
                         else ret None);
       do image_path <- (if no_path image_path
                         then logging WARNING MsgFallingBack ;; get_latest_saved_image
                         else ret image_path);
       update_display E image_path default_saturation)
    (started w).
Proof.
  unfold refresh_image. rewrite bind_split, enter_run. cbn [fst snd].
  rewrite bind_split, logging_run. cbn [fst snd]. now rewrite extend_extend.
Qed.

End Refresh.

(** ** The newest entry *)

Lemma keyed_NoDup files :
  NoDup (map f_name files) ->
  keyed files = map (fun f => (f_mtime f, f_name f)) (filter is_png files).
Proof.
  intros Hnd. unfold keyed. rewrite map_map. apply map_ext_in.
  intros f Hf. apply filter_In in Hf. destruct Hf as [Hf _].
  unfold mtime_of. now rewrite (find_file_NoDup files f Hnd Hf).
Qed.

(** With distinct names, the first newest key is the key of a [.png] entry
    that no other is newer than, and that comes first among its equals. *)
Lemma first_max_keyed files m :
  NoDup (map f_name files) ->
  first_max (keyed files) = Some m ->
  exists f before after,
    m = (f_mtime f, f_name f) /\
    filter is_png files = before ++ f :: after /\
    (forall g, In g before -> (f_mtime g < f_mtime f)%Z) /\
    (forall g, In g after -> (f_mtime g <= f_mtime f)%Z).
Proof.
  intros Hnd Hm. rewrite (keyed_NoDup files Hnd) in Hm.
  destruct (first_max_split _ _ Hm) as (b & a & Hsplit & Hb & Ha).
  apply map_eq_app in Hsplit. destruct Hsplit as (b' & r & Hfiles & Hb' & Hr).
  apply map_eq_cons in Hr. destruct Hr as (f & a' & -> & Hf & Ha').
  exists f, b', a'. subst b a m. repeat split; auto.
  - intros g Hg. apply (Hb (f_mtime g, f_name g)).
    apply (in_map (fun f => (f_mtime f, f_name f))) in Hg. exact Hg.
  - intros g Hg. apply (Ha (f_mtime g, f_name g)).
    apply (in_map (fun f => (f_mtime f, f_name f))) in Hg. exact Hg.
Qed.

Lemma first_max_keyed_some files g :
  In g files -> is_png g = true -> exists m, first_max (keyed files) = Some m.
Proof.
  intros Hg Hpng. destruct (first_max (keyed files)) as [m|] eqn:Hm; [eauto|].
  apply first_max_None in Hm. unfold keyed in Hm.
  apply map_eq_nil in Hm. apply map_eq_nil in Hm.
  assert (Hin : In g (filter is_png files)) by (apply filter_In; auto).
  rewrite Hm in Hin. destruct Hin.
Qed.

(** ** The coordinator's three outcomes *)

Section RefreshOutcomes.

Variable E : Env.

(** C1, as the code has it.  When the fetch returns a URL and the download
    succeeds, [refresh_image] returns, [image.save] is called exactly once,
    [update_display] is called exactly once, on the saved path, and the
    directory is the old one with that file written: one new file when no
    entry had the name of the current second, the same names with that
    entry replaced when one had. *)
Theorem refresh_image_renders_download w u w1 p w2 :
  fetch_image_url E (started w) = (Ok u, w1) ->
  truthy u = true ->
  download_image E u w1 = (Ok (Some p), w2) ->
  exists w3 d files f,
    refresh_image E w = (Ok tt, w3) /\
    trace w3 = trace w ++ d /\
    saved d = [p] /\
    renders d = [Some p] /\
    p = os_path_join IMAGE_DIR (f_name f) /\
    cache_dir w = Some files /\
    cache_dir w3 = Some (write_file files f) /\
    find_file (f_name f) (write_file files f) = Some f /\
    (find_file (f_name f) files = None ->
       write_file files f = files ++ [f] /\
       new_names files (write_file files f) = [f_name f]) /\
    (forall g, find_file (f_name f) files = Some g ->
       map f_name (write_file files f) = map f_name files /\
       new_names files (write_file files f) = []).
Proof.
  intros Hfetch Hu Hdown.
  destruct (fetch_image_url_world E (started w)) as (df & Hw1 & Hdf & _).
  rewrite Hfetch in Hw1. cbn [snd] in Hw1. subst w1.
  destruct (download_image_cases E u (extend (started w) df) Hu)
    as [(m & Hd)|(files & img & Hc & Hd)]; rewrite Hd in Hdown; [discriminate|].
  injection Hdown as Hp Hw2. subst p w2.
  set (f := {| f_name := target_name E u (extend (started w) df);
               f_mtime := fs_clock E (extend (extend (started w) df) [HttpGet u]);
               f_data := pil_encode_png E img |}) in *.
  set (p := target_path E u (extend (started w) df)) in *.
  match type of Hd with _ = (_, ?w') => set (w2 := w') in * end.
  destruct (update_display_cases E (Some p) default_saturation w2)
    as (dd & Hupd & Hdd & _).
  destruct (chatter_silent df Hdf) as (Hs1 & Hr1 & _).
  destruct (display_silent dd Hdd) as (Hs2 & Hr2 & _).
  exists (extend w2 (Enter (Call_update_display (Some p)) :: dd)).
  exists ([Enter Call_refresh_image; Log INFO MsgRefreshing] ++ df ++
          [HttpGet u; FileSaved p; Log INFO (MsgSavedNewImage p)] ++
          [Enter (Call_update_display (Some p))] ++ dd).
  exists files, f.
  split; [|split; [|split; [|split; [|split; [|split; [|split; [|split; [|split]]]]]]]].
  - rewrite refresh_image_start, bind_split, Hfetch. cbn [fst snd]. rewrite Hu.
    rewrite bind_split, Hd. cbn [fst snd].
    unfold no_path. subst p. unfold target_path at 1.
    rewrite os_path_join_nonempty. rewrite bind_split, ret_run. cbn [fst snd].
    exact Hupd.
  - subst w2. unfold started, extend. cbn [trace]. rewrite <- !app_assoc. reflexivity.
  - rewrite !saved_app, Hs1, Hs2. reflexivity.
  - rewrite !renders_app, Hr1, Hr2. reflexivity.
  - reflexivity.
  - exact Hc.
  - reflexivity.
  - apply find_file_write.
  - intros Hnew. rewrite (write_file_new _ _ Hnew). split; [reflexivity|].
    now apply new_names_one.
  - intros g Hold. pose proof (write_file_names_old _ _ _ Hold) as Hn.
    split; [exact Hn | now apply new_names_none].
Qed.

(** C2.  When the fetch returns no URL and the directory holds an image
    file, [refresh_image] returns, writes nothing, and calls
    [update_display] exactly once, on a cached [.png] file that no other
    one is newer than. *)
Theorem refresh_image_falls_back_to_latest w v w1 files :
  fetch_image_url E (started w) = (Ok v, w1) ->
  truthy v = false ->
  cache_dir w = Some files ->
  NoDup (map f_name files) ->
  (exists g, In g files /\ is_png g = true) ->
  exists w3 d f,
    refresh_image E w = (Ok tt, w3) /\
    trace w3 = trace w ++ d /\
    cache_dir w3 = Some files /\
    saved d = [] /\
    renders d = [Some (os_path_join IMAGE_DIR (f_name f))] /\
    In f files /\ is_png f = true /\
    (forall g, In g files -> is_png g = true -> (f_mtime g <= f_mtime f)%Z).
Proof.
  intros Hfetch Hv Hc Hnd (g0 & Hg0 & Hpng0).
  destruct (fetch_image_url_world E (started w)) as (df & Hw1 & Hdf & _).
  rewrite Hfetch in Hw1. cbn [snd] in Hw1. subst w1.
  destruct (first_max_keyed_some files g0 Hg0 Hpng0) as [m Hm].
  destruct (first_max_keyed files m Hnd Hm) as (f & b & a & -> & Hsplit & Hb & Ha).
  set (p := os_path_join IMAGE_DIR (f_name f)).
  set (w2 := extend (extend (started w) df) [Log WARNING MsgFallingBack]).
  destruct (update_display_cases E (Some p) default_saturation w2)
    as (dd & Hupd & Hdd & _).
  destruct (chatter_silent df Hdf) as (Hs1 & Hr1 & _).
  destruct (display_silent dd Hdd) as (Hs2 & Hr2 & _).
  assert (Hf : In f (filter is_png files)) by (rewrite Hsplit; apply in_elt).
  apply filter_In in Hf. destruct Hf as [Hfin Hfpng].
  exists (extend w2 (Enter (Call_update_display (Some p)) :: dd)).
  exists ([Enter Call_refresh_image; Log INFO MsgRefreshing] ++ df ++
          [Log WARNING MsgFallingBack] ++
          [Enter (Call_update_display (Some p))] ++ dd).
  exists f.
  split; [|split; [|split; [|split; [|split; [|split; [|split]]]]]]; auto.
  - rewrite refresh_image_start, bind_split, Hfetch. cbn [fst snd]. rewrite Hv.
    rewrite bind_split, ret_run. cbn [fst snd no_path].
    rewrite bind_split, bind_split, logging_run. cbn [fst snd].
    rewrite (get_latest_saved_image_readable files) by exact Hc.
    rewrite Hm. cbn [fst snd option_map]. exact Hupd.
  - subst w2. unfold started, extend. cbn [trace]. rewrite <- !app_assoc. reflexivity.
  - rewrite !saved_app, Hs1, Hs2. reflexivity.
  - rewrite !renders_app, Hr1, Hr2. reflexivity.
  - intros g Hg Hpng.
    assert (Hin : In g (filter is_png files)) by (apply filter_In; auto).
    rewrite Hsplit in Hin. apply in_app_or in Hin.
    destruct Hin as [Hin|[<-|Hin]]; [specialize (Hb g Hin) | | specialize (Ha g Hin)]; lia.
Qed.

(** C3, as the code has it.  When the fetch returns no URL and the
    directory is empty, [refresh_image] returns, nothing reaches the panel
    ([update_display] is entered once, with no path), and the warnings
    logged are the fetcher's (none after a request error, one when the
    response held no URL) followed by two: the fallback warning and the
    renderer's warning. *)
Theorem refresh_image_nothing_to_show w v w1 :
  fetch_image_url E (started w) = (Ok v, w1) ->
  truthy v = false ->
  cache_dir w = Some [] ->
  exists w3 d fw,
    refresh_image E w = (Ok tt, w3) /\
    trace w3 = trace w ++ d /\
    cache_dir w3 = Some [] /\
    panel_calls d = [] /\
    renders d = [None] /\
    warnings d = fw ++ [MsgFallingBack; MsgNoValidImage] /\
    (fw = [] \/ fw = [MsgNoImageURL]).
Proof.
  intros Hfetch Hv Hc.
  destruct (fetch_image_url_world E (started w)) as (df & Hw1 & Hdf & Hwarn).
  rewrite Hfetch in Hw1. cbn [snd] in Hw1. subst w1.
  destruct (chatter_silent df Hdf) as (_ & Hr1 & _ & Hp1 & _).
  exists (extend w ([Enter Call_refresh_image; Log INFO MsgRefreshing] ++ df ++
                    [Log WARNING MsgFallingBack; Enter (Call_update_display None);
                     Log WARNING MsgNoValidImage])).
  eexists. exists (warnings df).
  split; [|split; [reflexivity|split; [exact Hc|split; [|split; [|split]]]]].
  - rewrite refresh_image_start, bind_split, Hfetch. cbn [fst snd]. rewrite Hv.
    rewrite bind_split, ret_run. cbn [fst snd no_path].
    rewrite bind_split, bind_split, logging_run. cbn [fst snd].
    rewrite (get_latest_saved_image_readable []) by exact Hc.
    cbn [fst snd keyed filter map first_max option_map].
    unfold update_display. run. unfold started. run.
    rewrite <- !app_assoc. reflexivity.
  - rewrite !panel_calls_app, Hp1. reflexivity.
  - rewrite !renders_app, Hr1. reflexivity.
  - rewrite !warnings_app. reflexivity.
  - exact Hwarn.
Qed.

End RefreshOutcomes.

(** C1 on a frame that is online, with an empty cache. *)
Lemma refresh_image_renders_download_witness :
  exists w3 d files f,
    refresh_image online empty_cache = (Ok tt, w3) /\
    trace w3 = trace empty_cache ++ d /\
    saved d = ["images/20240309_105959.png"] /\
    renders d = [Some "images/20240309_105959.png"] /\
    "images/20240309_105959.png" = os_path_join IMAGE_DIR (f_name f) /\
    cache_dir empty_cache = Some files /\
    cache_dir w3 = Some (write_file files f) /\
    find_file (f_name f) (write_file files f) = Some f /\
    (find_file (f_name f) files = None ->
       write_file files f = files ++ [f] /\
       new_names files (write_file files f) = [f_name f]) /\
    (forall g, find_file (f_name f) files = Some g ->
       map f_name (write_file files f) = map f_name files /\
       new_names files (write_file files f) = []).
Proof.
  eapply (refresh_image_renders_download online empty_cache).
  - vm_compute. reflexivity.
  - reflexivity.
  - vm_compute. reflexivity.
Defined.

(** C1 as stated fails when the directory already holds a file named after
    the current second: the fetch returns a URL, the download succeeds, and
    the directory has the same single name as before, no new file. *)
Lemma refresh_image_same_second_no_new_file :
  fst (fetch_image_url online (started same_second_cache)) =
    Ok (JStr "https://muses.robr.app/i.png") /\
  fst (download_image online (JStr "https://muses.robr.app/i.png")
         (snd (fetch_image_url online (started same_second_cache)))) =
    Ok (Some "images/20240309_105959.png") /\
  fst (refresh_image online same_second_cache) = Ok tt /\
  map f_name (files_of same_second_cache) = ["20240309_105959.png"] /\
  map f_name (files_of (snd (refresh_image online same_second_cache))) =
    ["20240309_105959.png"] /\
  new_names (files_of same_second_cache)
            (files_of (snd (refresh_image online same_second_cache))) = [].
Proof. repeat split; vm_compute; reflexivity. Qed.

(** C2 on a frame that is offline, with two cached images. *)
Lemma refresh_image_falls_back_to_latest_witness :
  exists w3 d f,
    refresh_image offline two_files_cache = (Ok tt, w3) /\
    trace w3 = trace two_files_cache ++ d /\
    cache_dir w3 = Some (files_of two_files_cache) /\
    saved d = [] /\
    renders d = [Some (os_path_join IMAGE_DIR (f_name f))] /\
    In f (files_of two_files_cache) /\ is_png f = true /\
    (forall g, In g (files_of two_files_cache) -> is_png g = true ->
               (f_mtime g <= f_mtime f)%Z).
Proof.
  eapply (refresh_image_falls_back_to_latest offline two_files_cache).
  - vm_compute. reflexivity.
  - reflexivity.
  - reflexivity.
  - repeat constructor; simpl; intuition discriminate.
  - eexists. split; [left; reflexivity | reflexivity].
Defined.

(** C3 on a frame that is offline, with an empty cache. *)
Lemma refresh_image_nothing_to_show_witness :
  exists w3 d fw,
    refresh_image offline empty_cache = (Ok tt, w3) /\
    trace w3 = trace empty_cache ++ d /\
    cache_dir w3 = Some [] /\
    panel_calls d = [] /\
    renders d = [None] /\
    warnings d = fw ++ [MsgFallingBack; MsgNoValidImage] /\
    (fw = [] \/ fw = [MsgNoImageURL]).
Proof.
  eapply (refresh_image_nothing_to_show offline empty_cache).
  - vm_compute. reflexivity.
  - reflexivity.
  - reflexivity.
Defined.

(** C3 as stated fails on the number of warnings: with the endpoint timing
    out and an empty directory, [refresh_image] logs two. *)
Lemma refresh_image_nothing_to_show_two_warnings :
  fst (fetch_image_url offline (started empty_cache)) = Ok JNull /\
  cache_dir empty_cache = Some [] /\
  fst (refresh_image offline empty_cache) = Ok tt /\
  panel_calls (trace (snd (refresh_image offline empty_cache))) = [] /\
  warnings (trace (snd (refresh_image offline empty_cache))) =
    [MsgFallingBack; MsgNoValidImage].
Proof. repeat split; vm_compute; reflexivity. Qed.

(** ** The fetcher's failures *)

Section FetchFailures.

Variable E : Env.

(** The failures the fetcher turns into [None]: a failed request, a 4xx or
    5xx status, a body that is no JSON, an object without ["images"], and an
    ["images"] object without ["small"]. *)
Lemma fetch_image_url_absent w :
  match http_get E w API_URL with
  | HttpFailed _ => True
  | HttpResponse r =>
      ((400 <=? status_code r) && (status_code r <? 600))%Z = true \/
      body_json r = None \/
      (exists fields, body_json r = Some (JObj fields) /\
         (assoc "images" fields = None \/
          exists inner, assoc "images" fields = Some (JObj inner) /\
                        assoc "small" inner = None))
  end ->
  fst (fetch_image_url E w) = Ok JNull.
Proof.
  cbv [fetch_image_url try_except bind requests_get raise_for_status response_json
       py_get ret raise logging].
  destruct (http_get E w API_URL) as [why|r]; cbn [fst]; [reflexivity|].
  intros [H|[H|(fields & Hb & [H|(inner & Hi & H)])]].
  - rewrite H. reflexivity.
  - destruct (_ && _); [reflexivity|]. rewrite H. reflexivity.
  - destruct (_ && _); [reflexivity|]. rewrite Hb, H. reflexivity.
  - destruct (_ && _); [reflexivity|]. rewrite Hb, Hi, H. reflexivity.
Qed.

(** C4, where the code departs from it.  A response that passes
    [raise_for_status] and whose JSON object holds under ["images"] a value
    that is no object makes [fetch_image_url] raise [AttributeError]: the
    handler catches [RequestException] only. *)
Theorem fetch_image_url_raises_on_non_object_images w r fields v :
  http_get E w API_URL = HttpResponse r ->
  ((400 <=? status_code r) && (status_code r <? 600))%Z = false ->
  body_json r = Some (JObj fields) ->
  assoc "images" fields = Some v ->
  is_object v = false ->
  fetch_image_url E w = (Raise AttributeError, extend w [HttpGet (JStr API_URL)]).
Proof.
  intros Hget Hstatus Hbody Himages Hv.
  cbv [fetch_image_url try_except bind requests_get raise_for_status response_json
       py_get ret raise logging].
  rewrite Hget, Hstatus, Hbody, Himages.
  destruct v; try discriminate Hv; reflexivity.
Qed.

End FetchFailures.

(** C4 on the body [{"images": "none yet"}]: the error leaves the fetcher,
    the coordinator and the scheduler. *)
Lemma fetch_image_url_raises_on_non_object_images_witness :
  fetch_image_url images_not_object empty_cache =
    (Raise AttributeError, extend empty_cache [HttpGet (JStr API_URL)]) /\
  fst (refresh_image images_not_object empty_cache) = Raise AttributeError /\
  fst (auto_refresh images_not_object 3 empty_cache) = Raise AttributeError.
Proof.
  split; [|split; vm_compute; reflexivity].
  eapply (fetch_image_url_raises_on_non_object_images images_not_object empty_cache);
    reflexivity.
Defined.

(** ** The renderer on a panel without saturation control *)

Section RenderFallback.

Variable E : Env.

Lemma Image_open_extend path w d :
  Image_open E path (extend w d) = (fst (Image_open E path w), extend w d).
Proof.
  unfold Image_open. rewrite cache_dir_extend.
  destruct (cache_dir w); [|reflexivity].
  destruct (basename_in IMAGE_DIR path); [|reflexivity].
  destruct (find_file s l); [|reflexivity].
  unfold Image_open_bytes. now destruct (pil_decode E (f_data f)).
Qed.

Lemma Image_open_nonempty path w img :
  fst (Image_open E path w) = Ok img -> String.eqb path "" = false.
Proof.
  destruct (String.eqb path "") eqn:Hp; [|reflexivity].
  apply String.eqb_eq in Hp. subst path. unfold Image_open.
  destruct (cache_dir w); discriminate.
Qed.

(** C5, where the code departs from it.  On a panel that answers
    [TypeError] to an image set with saturation and is otherwise sound,
    [update_display] sets the image once more without saturation and shows
    it: four events, and no border is set, since [set_border] stands after
    the failing call inside the same [try]. *)
Theorem update_display_without_saturation path s w img resized :
  (forall w' i q, inky_set_image E w' i (Some q) = Some TypeError) ->
  (forall w' i, inky_set_image E w' i None = None) ->
  (forall w', inky_show E w' = None) ->
  fst (Image_open E path w) = Ok img ->
  pil_resize E img (inky_resolution E) = Some resized ->
  update_display E (Some path) s w =
    (Ok tt,
     extend w [Enter (Call_update_display (Some path));
               Panel (SetImage resized (Some s));
               Panel (SetImage resized None);
               Panel Show;
               Log INFO (MsgDisplayUpdated path)]).
Proof.
  intros Hsat Hplain Hshow Hopen Hresize.
  unfold update_display. rewrite (Image_open_nonempty path w img Hopen).
  rewrite bind_split, enter_run. cbn [fst snd].
  rewrite try_except_split, bind_split, Image_open_extend, Hopen. cbn [fst snd].
  unfold Image_resize. rewrite Hresize.
  rewrite bind_split, ret_run. cbn [fst snd].
  unfold panel_set_image, panel_show.
  cbv [bind try_except]. rewrite Hsat. cbn [of_option is_TypeError].
  rewrite Hplain. cbn [of_option]. rewrite Hshow. cbn [of_option fst snd].
  unfold logging. tidy. reflexivity.
Qed.

End RenderFallback.

(** C5 on a panel without saturation control, next to one with it. *)
Lemma update_display_without_saturation_witness :
  update_display no_saturation (Some "images/20240301_120000.png")
                 default_saturation one_file_cache =
    (Ok tt,
     extend one_file_cache
       [Enter (Call_update_display (Some "images/20240301_120000.png"));
        Panel (SetImage picture (Some default_saturation));
        Panel (SetImage picture None);
        Panel Show;
        Log INFO (MsgDisplayUpdated "images/20240301_120000.png")]) /\
  panel_calls (trace (snd (update_display no_saturation
                             (Some "images/20240301_120000.png")
                             default_saturation one_file_cache))) =
    [SetImage picture (Some default_saturation); SetImage picture None; Show] /\
  panel_calls (trace (snd (update_display online
                             (Some "images/20240301_120000.png")
                             default_saturation one_file_cache))) =
    [SetImage picture (Some default_saturation); SetBorder BLACK; Show].
Proof.
  split; [|split; vm_compute; reflexivity].
  apply (update_display_without_saturation no_saturation _ _ _ picture picture);
    reflexivity.
Defined.

(** ** The newest cached image and the order of the listing *)

(** C6, as the code has it.  On an empty directory there is no image.  On a
    directory with image files the result is an image file that none is
    newer than, the first listed among those as new.  So whenever one image
    file is strictly newer than every other, it is the result under every
    order of the listing. *)
Theorem get_latest_saved_image_first_newest w :
  (cache_dir w = Some [] -> get_latest_saved_image w = (Ok None, w)) /\
  (forall files,
     cache_dir w = Some files ->
     NoDup (map f_name files) ->
     (exists g, In g files /\ is_png g = true) ->
     exists f before after,
       get_latest_saved_image w = (Ok (Some (os_path_join IMAGE_DIR (f_name f))), w) /\
       filter is_png files = before ++ f :: after /\
       (forall g, In g before -> (f_mtime g < f_mtime f)%Z) /\
       (forall g, In g after -> (f_mtime g <= f_mtime f)%Z)) /\
  (forall files listing f,
     cache_dir w = Some listing ->
     Permutation files listing ->
     NoDup (map f_name files) ->
     In f files ->
     is_png f = true ->
     (forall g, In g files -> is_png g = true -> g = f \/ (f_mtime g < f_mtime f)%Z) ->
     get_latest_saved_image w = (Ok (Some (os_path_join IMAGE_DIR (f_name f))), w)).
Proof.
  assert (Hnewest : forall files,
     cache_dir w = Some files ->
     NoDup (map f_name files) ->
     (exists g, In g files /\ is_png g = true) ->
     exists f before after,
       get_latest_saved_image w = (Ok (Some (os_path_join IMAGE_DIR (f_name f))), w) /\
       filter is_png files = before ++ f :: after /\
       (forall g, In g before -> (f_mtime g < f_mtime f)%Z) /\
       (forall g, In g after -> (f_mtime g <= f_mtime f)%Z)).
  { intros files Hc Hnd (g & Hg & Hpng).
    destruct (first_max_keyed_some files g Hg Hpng) as [m Hm].
    destruct (first_max_keyed files m Hnd Hm) as (f & b & a & -> & Hsplit & Hb & Ha).
    exists f, b, a. repeat split; auto.
    rewrite (get_latest_saved_image_readable files w Hc), Hm. reflexivity. }
  split; [|split].
  - intros Hc. now rewrite (get_latest_saved_image_readable [] w Hc).
  - exact Hnewest.
  - intros files listing f Hc Hperm Hnd Hf Hpng Hstrict.
    assert (Hnd' : NoDup (map f_name listing)).
    { eapply Permutation_NoDup; [apply Permutation_map; exact Hperm | exact Hnd]. }
    destruct (Hnewest listing Hc Hnd') as (f' & b & a & Hrun & Hsplit & Hb & Ha).
    { exists f. split; [eapply Permutation_in; eauto | exact Hpng]. }
    assert (Hf' : In f' (filter is_png listing)) by (rewrite Hsplit; apply in_elt).
    apply filter_In in Hf'. destruct Hf' as [Hf'in Hf'png].
    apply (Permutation_in _ (Permutation_sym Hperm)) in Hf'in.
    assert (Hfl : In f (filter is_png listing)).
    { apply filter_In. split; [eapply Permutation_in; eauto | exact Hpng]. }
    rewrite Hsplit in Hfl. apply in_app_or in Hfl.
    destruct (Hstrict f' Hf'in Hf'png) as [->|Hlt]; [exact Hrun|].
    destruct Hfl as [Hfl|[->|Hfl]]; [specialize (Hb f Hfl); lia | exact Hrun |
                                     specialize (Ha f Hfl); lia].
Qed.

(** C6 on an empty cache, on two images, and on a reversed listing of two
    images and a newer file that is no image. *)
Lemma get_latest_saved_image_first_newest_witness :
  get_latest_saved_image empty_cache = (Ok None, empty_cache) /\
  (exists f before after,
     get_latest_saved_image two_files_cache =
       (Ok (Some (os_path_join IMAGE_DIR (f_name f))), two_files_cache) /\
     filter is_png (files_of two_files_cache) = before ++ f :: after /\
     (forall g, In g before -> (f_mtime g < f_mtime f)%Z) /\
     (forall g, In g after -> (f_mtime g <= f_mtime f)%Z)) /\
  get_latest_saved_image {| cache_dir := Some (rev three_files); trace := [] |} =
    (Ok (Some "images/20240302_120000.png"),
     {| cache_dir := Some (rev three_files); trace := [] |}).
Proof.
  split; [|split].
  - apply (proj1 (get_latest_saved_image_first_newest empty_cache)). reflexivity.
  - apply (proj1 (proj2 (get_latest_saved_image_first_newest two_files_cache))).
    + reflexivity.
    + repeat constructor; simpl; intuition discriminate.
    + eexists. split; [left; reflexivity | reflexivity].
  - apply (proj2 (proj2 (get_latest_saved_image_first_newest
                           {| cache_dir := Some (rev three_files); trace := [] |}))
             three_files (rev three_files) (old_file "20240302_120000.png" 20)).
    + reflexivity.
    + apply Permutation_rev.
    + repeat constructor; simpl; intuition discriminate.
    + simpl; auto.
    + reflexivity.
    + simpl. intros g [<-|[<-|[<-|[]]]] Hg; try discriminate Hg; [right|left]; simpl; [lia|reflexivity].
Defined.

(** C6 as stated fails on a tie: with two image files of the same
    modification time the result is the one listed first, so it follows the
    order of the listing. *)
Lemma get_latest_saved_image_tie_follows_listing :
  cache_dir tie_listed_a_first = Some [old_file "a.png" 7; old_file "b.png" 7] /\
  cache_dir tie_listed_b_first = Some [old_file "b.png" 7; old_file "a.png" 7] /\
  fst (get_latest_saved_image tie_listed_a_first) = Ok (Some "images/a.png") /\
  fst (get_latest_saved_image tie_listed_b_first) = Ok (Some "images/b.png").
Proof. repeat split; vm_compute; reflexivity. Qed.

(** ** Frames: what every operation preserves

    A relation between the world before and the world after that is
    reflexive, transitive, holds across every event the operations may
    leave and across [image.save] is preserved by every operation of the
    script.  [allowed] says which events the relation is closed under;
    entering [refresh_image], sleeping and reading the GPIO lines are asked
    for where they occur. *)

Section Frame.

Variable E : Env.
Variable R : World -> World -> Prop.
Variable allowed : event -> bool.

Hypothesis R_refl : forall w, R w w.
Hypothesis R_trans : forall a b c, R a b -> R b c -> R a c.
Hypothesis R_emit : forall e w, allowed e = true -> R w (emit e w).
Hypothesis R_save :
  forall w files f,
    cache_dir w = Some files ->
    R w {| cache_dir := Some (write_file files f);
           trace := trace w ++ [FileSaved (os_path_join IMAGE_DIR (f_name f))] |}.
Hypothesis allowed_inner : forall e, inner_event e = true -> allowed e = true.

Lemma respects_ret {A} (a : A) : respects R (ret a).
Proof. intros w. apply R_refl. Qed.

Lemma respects_raise {A} e : respects R (@raise A e).
Proof. intros w. apply R_refl. Qed.

Lemma respects_bind {A B} (m : M A) (k : A -> M B) :
  respects R m -> (forall a, respects R (k a)) -> respects R (bind m k).
Proof.
  intros Hm Hk w. rewrite bind_split. specialize (Hm w).
  destruct (fst (m w)); [|exact Hm].
  eapply R_trans; [exact Hm | apply Hk].
Qed.

Lemma respects_try_except {A} (m : M A) handler :
  respects R m ->
  (forall e h, handler e = Some h -> respects R h) ->
  respects R (try_except m handler).
Proof.
  intros Hm Hh w. rewrite try_except_split. specialize (Hm w).
  destruct (fst (m w)) as [a|e]; [exact Hm|].
  destruct (handler e) as [h|] eqn:He; [|exact Hm].
  eapply R_trans; [exact Hm | apply (Hh e h He)].
Qed.

Lemma respects_event e {A} (r : World -> result A) :
  inner_event e = true -> respects R (fun w => (r w, emit e w)).
Proof. intros He w. apply R_emit, allowed_inner, He. Qed.

Lemma respects_same {A} (m : M A) : (forall w, snd (m w) = w) -> respects R m.
Proof. intros H w. rewrite H. apply R_refl. Qed.

Lemma respects_logging lvl msg : respects R (logging lvl msg).
Proof. now apply respects_event. Qed.

Lemma respects_requests_get u : respects R (requests_get E u).
Proof. intros w. rewrite snd_requests_get. now apply R_emit, allowed_inner. Qed.

Lemma respects_Image_save img name :
  respects R (Image_save E img (os_path_join IMAGE_DIR name)).
Proof.
  intros w.
  destruct (Image_save_cases E img name w) as [[e ->]|(files & Hc & ->)];
    [apply R_refl|].
  apply (R_save w files {| f_name := name; f_mtime := fs_clock E w;
                           f_data := pil_encode_png E img |} Hc).
Qed.

Ltac caught :=
  let e := fresh "e" in let h := fresh "h" in let H := fresh "H" in
  intros e h H;
  repeat match type of H with
         | (if ?b then _ else _) = Some _ => destruct b
         end;
  inversion H; subst; clear H.

Ltac frame1 :=
  first
    [ apply respects_ret
    | apply respects_raise
    | apply respects_logging
    | apply respects_requests_get
    | apply respects_Image_save
    | apply respects_same; first
        [ apply snd_raise_for_status | apply snd_response_json | apply snd_py_get
        | apply snd_Image_open_bytes | apply snd_Image_open | apply snd_Image_resize
        | apply snd_os_listdir | apply snd_decorate | apply snd_list_index
        | apply snd_getitem | reflexivity ]
    | apply respects_event; reflexivity
    | apply respects_bind; [|intros ?]
    | apply respects_try_except; [|caught]
    | match goal with
      | |- respects R (let _ := _ in _) => cbv zeta
      | |- respects R (if ?b then _ else _) => destruct b
      | |- respects R (match ?x with _ => _ end) => destruct x
      end ].

Ltac frame := repeat frame1.

Lemma respects_fetch_image_url : respects R (fetch_image_url E).
Proof. unfold fetch_image_url. frame. Qed.

Lemma respects_download_image u : respects R (download_image E u).
Proof. unfold download_image. frame. Qed.

Lemma respects_get_latest_saved_image : respects R get_latest_saved_image.
Proof. unfold get_latest_saved_image. frame. Qed.

(** After its entry, [update_display] adds log lines and panel calls. *)
Lemma respects_update_display p s w :
  R (emit (Enter (Call_update_display p)) w) (snd (update_display E p s w)).
Proof.
  destruct (update_display_cases E p s w) as (d & -> & Hd & _). cbn [snd].
  rewrite emit_extend.
  change (Enter (Call_update_display p) :: d) with ([Enter (Call_update_display p)] ++ d).
  rewrite <- extend_extend.
  generalize (extend w [Enter (Call_update_display p)]). intros w0.
  revert w0. induction d as [|e d IH]; intros w0.
  - rewrite extend_nil. apply R_refl.
  - simpl in Hd. apply andb_true_iff in Hd. destruct Hd as [He Hd].
    change (e :: d) with ([e] ++ d). rewrite <- extend_extend.
    eapply R_trans; [|apply (IH Hd)].
    rewrite <- emit_extend. apply R_emit, allowed_inner.
    destruct e; try discriminate He; reflexivity.
Qed.

Lemma respects_update_display_call p s :
  respects R (update_display E p s).
Proof.
  intros w. eapply R_trans; [|apply respects_update_display].
  now apply R_emit, allowed_inner.
Qed.

(** After its entry, [refresh_image] does nothing the relation forbids. *)
Lemma respects_refresh_image w :
  R (emit (Enter Call_refresh_image) w) (snd (refresh_image E w)).
Proof.
  unfold refresh_image. rewrite bind_split, enter_run. cbn [fst snd].
  rewrite <- emit_extend. generalize (emit (Enter Call_refresh_image) w).
  change (respects R
    (logging INFO MsgRefreshing ;;
     do image_url <- fetch_image_url E;
     do image_path <- (if truthy image_url then download_image E image_url else ret None);
     do image_path <- (if no_path image_path
                       then logging WARNING MsgFallingBack ;; get_latest_saved_image
                       else ret image_path);
     update_display E image_path default_saturation)).
  repeat first
    [ apply respects_fetch_image_url | apply respects_download_image
    | apply respects_get_latest_saved_image | apply respects_update_display_call
    | frame1 ].
Qed.

Section Loops.

Hypothesis allowed_refresh : allowed (Enter Call_refresh_image) = true.
Hypothesis allowed_sleep : forall s, allowed (Slept s) = true.
Hypothesis allowed_read : allowed GpioRead = true.

Lemma respects_refresh_image_call : respects R (refresh_image E).
Proof.
  intros w. eapply R_trans; [|apply respects_refresh_image].
  now apply R_emit.
Qed.

Lemma respects_handle_event ev : respects R (handle_event E ev).
Proof.
  unfold handle_event.
  repeat first [ apply respects_refresh_image_call | frame1 ].
Qed.

Lemma respects_for_each_event events : respects R (for_each_event E events).
Proof.
  induction events as [|ev events IH]; simpl; [apply respects_ret|].
  apply respects_bind; [apply respects_handle_event | intros _; exact IH].
Qed.

Lemma respects_listen rounds : respects R (listen E rounds).
Proof.
  induction rounds as [|n IH]; simpl; [apply respects_ret|].
  apply respects_bind.
  - intros w. rewrite read_edge_events_run. cbn [snd]. rewrite <- emit_extend.
    now apply R_emit.
  - intros events. apply respects_bind; [apply respects_for_each_event | intros _; exact IH].
Qed.

Lemma respects_button_listener rounds : respects R (button_listener E rounds).
Proof.
  unfold button_listener.
  apply respects_bind; [apply respects_logging | intros _; apply respects_listen].
Qed.

Lemma respects_auto_refresh_cycle : respects R (auto_refresh_cycle E).
Proof.
  unfold auto_refresh_cycle.
  apply respects_bind; [apply respects_same; reflexivity | intros t].
  apply respects_bind; [apply respects_logging | intros _].
  apply respects_bind.
  { intros w. rewrite time_sleep_run. cbn [snd]. rewrite <- emit_extend.
    now apply R_emit. }
  intros _. apply respects_bind; [apply respects_logging | intros _].
  apply respects_refresh_image_call.
Qed.

Lemma respects_auto_refresh cycles : respects R (auto_refresh E cycles).
Proof.
  induction cycles as [|n IH]; simpl; [apply respects_ret|].
  apply respects_bind; [apply respects_auto_refresh_cycle | intros _; exact IH].
Qed.

End Loops.

End Frame.

(** ** What a refresh adds to the trace *)

Lemma adds_refl Q w : adds Q w w.
Proof. exists []. split; [now rewrite app_nil_r | reflexivity]. Qed.

Lemma adds_trans Q a b c : adds Q a b -> adds Q b c -> adds Q a c.
Proof.
  intros (d1 & H1 & Q1) (d2 & H2 & Q2). exists (d1 ++ d2). split.
  - now rewrite H2, H1, app_assoc.
  - now rewrite forallb_app, Q1, Q2.
Qed.

Lemma adds_emit Q e w : Q e = true -> adds Q w (emit e w).
Proof. intros He. exists [e]. split; [reflexivity | simpl; now rewrite He]. Qed.

Lemma adds_save Q w files f :
  Q (FileSaved (os_path_join IMAGE_DIR (f_name f))) = true ->
  adds Q w {| cache_dir := Some (write_file files f);
              trace := trace w ++ [FileSaved (os_path_join IMAGE_DIR (f_name f))] |}.
Proof. intros He. eexists. split; [reflexivity | simpl; now rewrite He]. Qed.

Lemma inner_silent d :
  forallb inner_event d = true -> refreshes d = [] /\ sleeps d = [].
Proof.
  induction d as [|e d IH]; simpl; [tauto|].
  rewrite andb_true_iff. intros [He Hd]. destruct (IH Hd) as (-> & ->).
  destruct e as [| | | | | |[|]]; try discriminate He; split; reflexivity.
Qed.

(** One call of [refresh_image] is one entry of [refresh_image]: whatever
    happens inside, it does not call itself, sleep or read the buttons. *)
Lemma refresh_image_inner E w :
  exists d,
    trace (snd (refresh_image E w)) = trace w ++ Enter Call_refresh_image :: d /\
    forallb inner_event d = true.
Proof.
  destruct (respects_refresh_image E (adds inner_event) inner_event
              (adds_refl inner_event) (adds_trans inner_event)
              (adds_emit inner_event)
              (fun w files f _ => adds_save inner_event w files f eq_refl)
              (fun e H => H) w) as (d & Hd & Hq).
  exists d. split; [|exact Hq].
  rewrite Hd. unfold emit. cbn [trace]. now rewrite <- app_assoc.
Qed.

(** ** The button listener *)

Lemma index_of_first x l i :
  index_of x l = Some i ->
  nth_error l i = Some x /\ forall j, (j < i)%nat -> nth_error l j <> Some x.
Proof.
  revert i. induction l as [|y l IH]; simpl; intros i H; [discriminate|].
  destruct (Z.eqb y x) eqn:Hy.
  - injection H as <-. apply Z.eqb_eq in Hy. subst y. split; [reflexivity|].
    intros j Hj. inversion Hj.
  - destruct (index_of x l) as [k|]; [|discriminate]. injection H as <-.
    destruct (IH k eq_refl) as [Hk Hmin]. split; [exact Hk|].
    intros [|j] Hj; simpl.
    + apply Z.eqb_neq in Hy. congruence.
    + apply Hmin. apply PeanoNat.lt_S_n. exact Hj.
Qed.

Lemma index_of_In x l : In x l -> exists i, index_of x l = Some i.
Proof.
  induction l as [|y l IH]; simpl; [tauto|].
  destruct (Z.eqb y x) eqn:Hy; [eauto|].
  intros [H|H]; [apply Z.eqb_neq in Hy; contradiction|].
  destruct (IH H) as [i ->]. eauto.
Qed.

Lemma index_of_not_In x l : ~ In x l -> index_of x l = None.
Proof.
  induction l as [|y l IH]; simpl; [reflexivity|].
  intros H. destruct (Z.eqb y x) eqn:Hy.
  - apply Z.eqb_eq in Hy. tauto.
  - rewrite IH; tauto.
Qed.

(** With distinct lines, the line configured at an index is found there. *)
Lemma index_of_nth l i x :
  NoDup l -> nth_error l i = Some x -> index_of x l = Some i.
Proof.
  revert i. induction l as [|y l IH]; intros i Hnd Hi; [destruct i; discriminate|].
  inversion Hnd as [|? ? Hnot Hnd']; subst. destruct i as [|i]; simpl in *.
  - injection Hi as ->. now rewrite Z.eqb_refl.
  - destruct (Z.eqb y x) eqn:Hy.
    + apply Z.eqb_eq in Hy. subst y. exfalso. apply Hnot.
      eapply nth_error_In; eauto.
    + now rewrite (IH i Hnd' Hi).
Qed.

Section Listener.

Variable E : Env.

(** The loop body at each index the lookup can return. *)
Lemma handle_event_at ev w i :
  index_of (line_offset ev) (OFFSETS E) = Some i ->
  match i with
  | 1%nat =>
      handle_event E ev w =
        refresh_image E (extend w [Log INFO (MsgButtonPress 6 "B"); Log INFO MsgButtonB])
  | _ =>
      exists gpio label,
        nth_error BUTTONS i = Some gpio /\ nth_error LABELS i = Some label /\
        handle_event E ev w = (Ok tt, extend w [Log INFO (MsgButtonPress gpio label)])
  end.
Proof.
  intros Hi.
  assert (Hlt : (i < 4)%nat).
  { change 4%nat with (List.length (OFFSETS E)). apply nth_error_Some.
    destruct (index_of_first _ _ _ Hi) as [Hnth _]. congruence. }
  unfold handle_event, list_index. rewrite Hi.
  destruct i as [|[|[|[|i]]]]; [| | | |lia].
  - exists 5, "A". repeat split.
  - cbv [bind ret logging getitem].
    change (nth_error BUTTONS 1) with (Some 6).
    change (nth_error LABELS 1) with (Some "B").
    cbv beta iota. change (String.eqb "B" "B") with true. cbv beta iota.
    tidy. reflexivity.
  - exists 16, "C". repeat split.
  - exists 24, "D". repeat split.
Qed.

(** Handling one event calls [refresh_image] once when the event is on the
    line of button B, and not at all otherwise. *)
Lemma handle_event_refreshes ev w :
  exists d,
    trace (snd (handle_event E ev w)) = trace w ++ d /\
    refreshes d = if labelled_B (OFFSETS E) ev then [tt] else [].
Proof.
  unfold labelled_B.
  destruct (index_of (line_offset ev) (OFFSETS E)) as [i|] eqn:Hi.
  - pose proof (handle_event_at ev w i Hi) as H.
    destruct i as [|[|i]].
    + destruct H as (gpio & label & _ & _ & ->). eexists. split; reflexivity.
    + rewrite H.
      destruct (refresh_image_inner E
                  (extend w [Log INFO (MsgButtonPress 6 "B"); Log INFO MsgButtonB]))
        as (d & Hd & Hq).
      exists ([Log INFO (MsgButtonPress 6 "B"); Log INFO MsgButtonB;
               Enter Call_refresh_image] ++ d).
      split; [rewrite Hd, trace_extend, <- app_assoc; reflexivity|].
      rewrite refreshes_app. destruct (inner_silent d Hq) as [-> _]. reflexivity.
    + destruct H as (gpio & label & _ & _ & ->). eexists. split; reflexivity.
  - exists []. unfold handle_event, list_index. rewrite Hi.
    split; [cbn; now rewrite app_nil_r | reflexivity].
Qed.

(** A batch that is handled to its end has called [refresh_image] once for
    each of its events on the line of button B. *)
Lemma for_each_event_refreshes events w :
  fst (for_each_event E events w) = Ok tt ->
  exists d,
    trace (snd (for_each_event E events w)) = trace w ++ d /\
    List.length (refreshes d) = List.length (filter (labelled_B (OFFSETS E)) events).
Proof.
  revert w. induction events as [|ev events IH]; intros w; simpl.
  - intros _. exists []. split; [now rewrite app_nil_r | reflexivity].
  - rewrite bind_split.
    destruct (handle_event_refreshes ev w) as (d1 & Hd1 & Hr1).
    destruct (fst (handle_event E ev w)); [|discriminate].
    intros Hrest. destruct (IH _ Hrest) as (d2 & Hd2 & Hr2).
    exists (d1 ++ d2). split; [now rewrite Hd2, Hd1, app_assoc|].
    rewrite refreshes_app, length_app, Hr1, Hr2.
    destruct (labelled_B (OFFSETS E) ev); reflexivity.
Qed.

(** A batch is handled from left to right, and an exception ends it. *)
Lemma for_each_event_app a b w :
  for_each_event E (a ++ b) w =
  match fst (for_each_event E a w) with
  | Ok _ => for_each_event E b (snd (for_each_event E a w))
  | Raise e => (Raise e, snd (for_each_event E a w))
  end.
Proof.
  revert w. induction a as [|ev a IH]; intros w; simpl; [reflexivity|].
  rewrite !bind_split. destruct (fst (handle_event E ev w)); [apply IH | reflexivity].
Qed.

(** With the four buttons on four distinct lines, an edge event on the
    line configured at index 2 leaves exactly one log line, that of button
    C, and calls nothing; an edge event on the line configured at index 1
    logs button B and calls [refresh_image] once. *)
Lemma handle_event_on_lines_C_and_B ev w :
  NoDup (OFFSETS E) ->
  (nth_error (OFFSETS E) 2 = Some (line_offset ev) ->
     handle_event E ev w = (Ok tt, extend w [Log INFO (MsgButtonPress 16 "C")])) /\
  (nth_error (OFFSETS E) 1 = Some (line_offset ev) ->
     labelled_B (OFFSETS E) ev = true /\
     handle_event E ev w =
       refresh_image E (extend w [Log INFO (MsgButtonPress 6 "B"); Log INFO MsgButtonB])).
Proof.
  intros Hnd. split.
  - intros Hline.
    destruct (handle_event_at ev w 2 (index_of_nth _ _ _ Hnd Hline))
      as (gpio & label & [= <-] & [= <-] & ->).
    reflexivity.
  - intros Hline. pose proof (index_of_nth _ _ _ Hnd Hline) as Hi.
    pose proof (handle_event_at ev w 1 Hi) as Hrun. cbv beta iota in Hrun.
    split; [unfold labelled_B; now rewrite Hi | exact Hrun].
Qed.

(** The loop catches nothing: an exception out of a batch ends it, whatever
    the number of turns left. *)
Lemma listen_raises rounds w e :
  fst (for_each_event E (request_read_edge_events E w) (extend w [GpioRead])) = Raise e ->
  listen E (S rounds) w =
    (Raise e,
     snd (for_each_event E (request_read_edge_events E w) (extend w [GpioRead]))).
Proof.
  intros Hraise. simpl.
  rewrite bind_split, read_edge_events_run. cbn [fst snd].
  rewrite bind_split, Hraise. reflexivity.
Qed.

(** C8, where the code departs from it.  [button_listener] catches nothing,
    and [refresh_image] can raise.  When the refresh called for an event on
    the line of button B raises, the exception leaves the listener: it ends
    in the world in which that refresh ended, so the events that follow in
    the batch are not handled, an event of button C among them leaves no log
    line and an event of button B gets no refresh, and no further batch is
    read.  From the entry into that refresh on, the listener has called
    [refresh_image] no more. *)
Theorem button_listener_ends_when_refresh_raises rounds w before ev rest e :
  request_read_edge_events E (extend w [Log INFO MsgListenerStarted]) =
    before ++ ev :: rest ->
  fst (for_each_event E before (extend w [Log INFO MsgListenerStarted; GpioRead])) =
    Ok tt ->
  labelled_B (OFFSETS E) ev = true ->
  fst (refresh_image E
         (extend (snd (for_each_event E before
                         (extend w [Log INFO MsgListenerStarted; GpioRead])))
            [Log INFO (MsgButtonPress 6 "B"); Log INFO MsgButtonB])) = Raise e ->
  button_listener E (S rounds) w =
    (Raise e,
     snd (refresh_image E
            (extend (snd (for_each_event E before
                            (extend w [Log INFO MsgListenerStarted; GpioRead])))
               [Log INFO (MsgButtonPress 6 "B"); Log INFO MsgButtonB]))) /\
  exists d,
    trace (snd (button_listener E (S rounds) w)) =
      trace (snd (for_each_event E before
                    (extend w [Log INFO MsgListenerStarted; GpioRead]))) ++
      [Log INFO (MsgButtonPress 6 "B"); Log INFO MsgButtonB; Enter Call_refresh_image] ++ d /\
    refreshes d = [] /\
    forallb inner_event d = true.
Proof.
  intros Hread Hbefore HB Hraise.
  set (w0 := extend w [Log INFO MsgListenerStarted]) in *.
  assert (Hw0 : extend w0 [GpioRead] = extend w [Log INFO MsgListenerStarted; GpioRead]).
  { subst w0. now rewrite extend_extend. }
  set (wb := snd (for_each_event E before
                    (extend w [Log INFO MsgListenerStarted; GpioRead]))) in *.
  set (wr := extend wb [Log INFO (MsgButtonPress 6 "B"); Log INFO MsgButtonB]) in *.
  assert (Hev : handle_event E ev wb = refresh_image E wr).
  { unfold labelled_B in HB.
    destruct (index_of (line_offset ev) (OFFSETS E)) as [i|] eqn:Hi; [|discriminate].
    destruct i as [|[|i]]; try discriminate.
    exact (handle_event_at ev wb 1 Hi). }
  assert (Hbatch : for_each_event E (before ++ ev :: rest) (extend w0 [GpioRead]) =
                   (Raise e, snd (refresh_image E wr))).
  { rewrite Hw0, for_each_event_app, Hbefore. fold wb.
    simpl. rewrite bind_split, Hev, Hraise. reflexivity. }
  assert (Hrun : button_listener E (S rounds) w = (Raise e, snd (refresh_image E wr))).
  { unfold button_listener. rewrite bind_split, logging_run. cbn [fst snd]. fold w0.
    rewrite (listen_raises rounds w0 e); rewrite Hread, Hbatch; reflexivity. }
  split; [exact Hrun|].
  destruct (refresh_image_inner E wr) as (d & Hd & Hq).
  exists d. rewrite Hrun. cbn [snd]. rewrite Hd. subst wr.
  rewrite trace_extend, <- app_assoc. split; [reflexivity|].
  split; [apply (inner_silent d Hq) | exact Hq].
Qed.

(** C10.  The lookup of an event's line is partial.  On one of the four
    configured lines it succeeds with the first index of that line, and the
    event is logged under the pin and label of that index; on any other line
    it raises [ValueError], which nothing catches: the rest of the batch is
    dropped and the listener's loop ends. *)
Theorem handle_event_lookup_partial ev w :
  List.length (OFFSETS E) = 4%nat /\
  (In (line_offset ev) (OFFSETS E) ->
     exists i gpio label d,
       list_index (OFFSETS E) (line_offset ev) w = (Ok i, w) /\
       nth_error (OFFSETS E) i = Some (line_offset ev) /\
       (forall j, (j < i)%nat -> nth_error (OFFSETS E) j <> Some (line_offset ev)) /\
       nth_error BUTTONS i = Some gpio /\
       nth_error LABELS i = Some label /\
       trace (snd (handle_event E ev w)) =
         trace w ++ Log INFO (MsgButtonPress gpio label) :: d) /\
  (~ In (line_offset ev) (OFFSETS E) ->
     list_index (OFFSETS E) (line_offset ev) w = (Raise ValueError, w) /\
     handle_event E ev w = (Raise ValueError, w) /\
     (forall rest, for_each_event E (ev :: rest) w = (Raise ValueError, w)) /\
     (forall rounds w0 rest,
        request_read_edge_events E w0 = ev :: rest ->
        listen E (S rounds) w0 = (Raise ValueError, extend w0 [GpioRead])) /\
     (forall rounds w0 rest,
        request_read_edge_events E (extend w0 [Log INFO MsgListenerStarted]) = ev :: rest ->
        button_listener E (S rounds) w0 =
          (Raise ValueError, extend w0 [Log INFO MsgListenerStarted; GpioRead]))).
Proof.
  split; [reflexivity|]. split.
  - intros Hin. destruct (index_of_In _ _ Hin) as [i Hi].
    destruct (index_of_first _ _ _ Hi) as [Hnth Hmin].
    assert (Hlt : (i < 4)%nat).
    { change 4%nat with (List.length (OFFSETS E)). apply nth_error_Some. congruence. }
    assert (Hb : exists gpio, nth_error BUTTONS i = Some gpio).
    { destruct (nth_error BUTTONS i) eqn:Hb; [eauto|].
      apply nth_error_None in Hb. simpl in Hb. lia. }
    assert (Hl : exists label, nth_error LABELS i = Some label).
    { destruct (nth_error LABELS i) eqn:Hl; [eauto|].
      apply nth_error_None in Hl. simpl in Hl. lia. }
    destruct Hb as [gpio Hb], Hl as [label Hl].
    assert (Hd : exists d, trace (snd (handle_event E ev w)) =
                           trace w ++ Log INFO (MsgButtonPress gpio label) :: d).
    { unfold handle_event, list_index, getitem. rewrite Hi.
      cbv [bind ret logging]. rewrite Hb, Hl.
      destruct (String.eqb label "B"); [|exists []; reflexivity].
      destruct (refresh_image_inner E
                  (emit (Log INFO MsgButtonB)
                     (emit (Log INFO (MsgButtonPress gpio label)) w)))
        as (d & Hd & _).
      eexists. rewrite Hd. unfold emit. cbn [trace]. rewrite <- !app_assoc. reflexivity. }
    destruct Hd as [d Hd].
    exists i, gpio, label, d. unfold list_index. rewrite Hi. repeat split; auto.
  - intros Hout. pose proof (index_of_not_In _ _ Hout) as Hi.
    assert (Hev : forall w', handle_event E ev w' = (Raise ValueError, w')).
    { intros w'. unfold handle_event, list_index. rewrite Hi. reflexivity. }
    assert (Hfor : forall rest w', for_each_event E (ev :: rest) w' = (Raise ValueError, w')).
    { intros rest w'. simpl. rewrite bind_split, Hev. reflexivity. }
    split; [unfold list_index; now rewrite Hi|].
    split; [apply Hev|]. split; [intros rest; apply Hfor|].
    assert (Hlisten : forall rounds rest w1, request_read_edge_events E w1 = ev :: rest ->
              listen E (S rounds) w1 = (Raise ValueError, extend w1 [GpioRead])).
    { intros rounds rest w1 H1. simpl.
      rewrite bind_split, read_edge_events_run. cbn [fst snd].
      rewrite H1, bind_split, Hfor. reflexivity. }
    split; [intros rounds w0 rest; apply Hlisten|].
    intros rounds w0 rest Hread.
    unfold button_listener. rewrite bind_split, logging_run. cbn [fst snd].
    rewrite (Hlisten rounds rest _ Hread), extend_extend. reflexivity.
Qed.

End Listener.

(** The refresh of the first press raises on the metadata answer
    [{"images": "none yet"}]: of the presses on B, C and B the listener
    handles the first only, with one refresh for the two presses on B and no
    log line for the press on C.  With an answer that has the object, the
    same presses are handled to the last. *)
Lemma button_listener_ends_when_refresh_raises_witness :
  button_listener (listening images_not_object [press 6; press 16; press 6]) 1 empty_cache =
    (Raise AttributeError,
     extend empty_cache
       [Log INFO MsgListenerStarted; GpioRead;
        Log INFO (MsgButtonPress 6 "B"); Log INFO MsgButtonB;
        Enter Call_refresh_image; Log INFO MsgRefreshing; HttpGet (JStr API_URL)]) /\
  fst (button_listener (listening online [press 6; press 16; press 6]) 1 empty_cache) =
    Ok tt /\
  List.length
    (refreshes
       (trace (snd (button_listener (listening online [press 6; press 16; press 6])
                      1 empty_cache)))) = 2%nat /\
  In (Log INFO (MsgButtonPress 16 "C"))
    (trace (snd (button_listener (listening online [press 6; press 16; press 6])
                   1 empty_cache))).
Proof.
  split; [|split; [|split]].
  - apply (proj1 (button_listener_ends_when_refresh_raises
                    (listening images_not_object [press 6; press 16; press 6])
                    0 empty_cache [] (press 6) [press 16; press 6] AttributeError
                    eq_refl eq_refl eq_refl eq_refl)).
  - vm_compute. reflexivity.
  - vm_compute. reflexivity.
  - vm_compute. tauto.
Defined.

(** C10 on the same chip: line 24 is configured, line 7 is not. *)
Lemma handle_event_lookup_partial_witness :
  (exists i gpio label d,
     list_index (OFFSETS online) 24 empty_cache = (Ok i, empty_cache) /\
     nth_error (OFFSETS online) i = Some 24 /\
     (forall j, (j < i)%nat -> nth_error (OFFSETS online) j <> Some 24) /\
     nth_error BUTTONS i = Some gpio /\
     nth_error LABELS i = Some label /\
     trace (snd (handle_event online (press 24) empty_cache)) =
       trace empty_cache ++ Log INFO (MsgButtonPress gpio label) :: d) /\
  handle_event online (press 7) empty_cache = (Raise ValueError, empty_cache).
Proof.
  split.
  - apply (proj1 (proj2 (handle_event_lookup_partial online (press 24) empty_cache))).
    simpl. auto.
  - apply (proj2 (proj2 (handle_event_lookup_partial online (press 7) empty_cache))).
    simpl. intuition discriminate.
Defined.

(** ** The scheduler *)

Section Scheduler.

Variable E : Env.

(** C7, as the code has it.  The duration the scheduler computes is the
    whole number of seconds from the current second to the next hour
    boundary: it lies between 1 and 3600, it ends on minute 0, second 0, and
    it exceeds the time left until the boundary by the microseconds of the
    current time, which the code does not read.  The cycle logs, sleeps
    exactly once, for that duration, and then calls [refresh_image] exactly
    once. *)
Theorem auto_refresh_cycle_sleeps_whole_seconds w :
  valid_time (datetime_now E w) ->
  let t := datetime_now E w in
  let s := seconds_until_next_hour t in
  (1 <= s <= 3600)%Z /\
  (minute t * 60 + second t + s = 3600)%Z /\
  (s * 1000000 = us_to_next_hour t + microsecond t)%Z /\
  auto_refresh_cycle E w =
    refresh_image E
      (extend w [Log INFO (MsgSleeping s); Slept s; Log INFO MsgTopOfHour]) /\
  exists d,
    trace (snd (auto_refresh_cycle E w)) =
      trace w ++ [Log INFO (MsgSleeping s); Slept s; Log INFO MsgTopOfHour;
                  Enter Call_refresh_image] ++ d /\
    sleeps d = [] /\ refreshes d = [].
Proof.
  intros (Hm & Hs & Hu) t s. fold t in Hm, Hs, Hu.
  assert (Hrun : auto_refresh_cycle E w =
    refresh_image E
      (extend w [Log INFO (MsgSleeping s); Slept s; Log INFO MsgTopOfHour])).
  { unfold auto_refresh_cycle. cbv [bind now logging time_sleep]. tidy. reflexivity. }
  assert (Hs' : s = ((60 - minute t) * 60 - second t)%Z) by reflexivity.
  unfold us_to_next_hour, us_into_hour.
  split; [lia|]. split; [lia|]. split; [lia|]. split; [exact Hrun|].
  rewrite Hrun.
  destruct (refresh_image_inner E
              (extend w [Log INFO (MsgSleeping s); Slept s; Log INFO MsgTopOfHour]))
    as (d & Hd & Hq).
  exists d. destruct (inner_silent d Hq) as [Hr Hsl].
  split; [|split; assumption].
  rewrite Hd, trace_extend, <- app_assoc. reflexivity.
Qed.

End Scheduler.

(** C7 at 11:00:00 sharp: a sleep of 3600 seconds. *)
Lemma auto_refresh_cycle_sleeps_whole_seconds_witness :
  let t := on_the_hour in
  let s := seconds_until_next_hour t in
  (1 <= s <= 3600)%Z /\
  (minute t * 60 + second t + s = 3600)%Z /\
  (s * 1000000 = us_to_next_hour t + microsecond t)%Z /\
  auto_refresh_cycle (frame_env api_ok img_ok on_the_hour None) empty_cache =
    refresh_image (frame_env api_ok img_ok on_the_hour None)
      (extend empty_cache [Log INFO (MsgSleeping s); Slept s; Log INFO MsgTopOfHour]) /\
  exists d,
    trace (snd (auto_refresh_cycle (frame_env api_ok img_ok on_the_hour None) empty_cache)) =
      trace empty_cache ++ [Log INFO (MsgSleeping s); Slept s; Log INFO MsgTopOfHour;
                            Enter Call_refresh_image] ++ d /\
    sleeps d = [] /\ refreshes d = [].
Proof.
  apply (auto_refresh_cycle_sleeps_whole_seconds
           (frame_env api_ok img_ok on_the_hour None) empty_cache).
  unfold valid_time. simpl. lia.
Defined.

(** C7 as stated fails within a second: at 10:59:59.900000 the next hour is
    100000 microseconds away and the scheduler sleeps one second. *)
Lemma auto_refresh_sleeps_past_the_hour :
  valid_time just_before_eleven /\
  us_to_next_hour just_before_eleven = 100000 /\
  seconds_until_next_hour just_before_eleven = 1 /\
  sleeps (trace (snd (auto_refresh_cycle online empty_cache))) = [1].
Proof.
  split; [unfold valid_time; simpl; lia|].
  repeat split; vm_compute; reflexivity.
Qed.

(** ** The cache only grows *)

Lemma cache_kept_refl w : cache_kept w w.
Proof.
  exists []. split; [now rewrite app_nil_r|].
  intros files Hc. exists files. split; [exact Hc|].
  intros f Hf. exists f. auto.
Qed.

Lemma cache_kept_trans a b c : cache_kept a b -> cache_kept b c -> cache_kept a c.
Proof.
  intros (d1 & T1 & K1) (d2 & T2 & K2). exists (d1 ++ d2).
  split; [now rewrite T2, T1, app_assoc|].
  intros files Ha. destruct (K1 files Ha) as (files1 & Hb & F1).
  destruct (K2 files1 Hb) as (files2 & Hc & F2).
  exists files2. split; [exact Hc|].
  intros f Hf. destruct (F1 f Hf) as (f1 & Hin1 & Hn1 & Hsame1).
  destruct (F2 f1 Hin1) as (f2 & Hin2 & Hn2 & Hsame2).
  exists f2. split; [exact Hin2|]. split; [congruence|].
  destruct Hsame1 as [->|Hs1]; [destruct Hsame2 as [->|Hs2]|].
  - now left.
  - right. apply in_or_app. now right.
  - right. apply in_or_app. now left.
Qed.

Lemma cache_kept_emit e w : cache_kept w (emit e w).
Proof.
  exists [e]. split; [reflexivity|].
  intros files Hc. exists files. split; [exact Hc|].
  intros f Hf. exists f. auto.
Qed.

Lemma write_file_keeps files f0 f :
  In f files ->
  exists f', In f' (write_file files f0) /\ f_name f' = f_name f /\
             (f' = f \/ f_name f = f_name f0).
Proof.
  induction files as [|g files IH]; simpl; [tauto|].
  destruct (String.eqb (f_name g) (f_name f0)) eqn:Hg.
  - apply String.eqb_eq in Hg. intros [->|Hf].
    + exists f0. split; [now left|]. split; [now rewrite Hg | now right].
    + exists f. split; [now right|]. auto.
  - intros [->|Hf].
    + exists f. split; [now left|]. auto.
    + destruct (IH Hf) as (f' & Hin & Hn & Hs). exists f'. split; [now right|]. auto.
Qed.

Lemma cache_kept_save w files f0 :
  cache_dir w = Some files ->
  cache_kept w {| cache_dir := Some (write_file files f0);
                  trace := trace w ++ [FileSaved (os_path_join IMAGE_DIR (f_name f0))] |}.
Proof.
  intros Hc. eexists. split; [reflexivity|].
  intros files' Hc'. rewrite Hc in Hc'. injection Hc' as <-.
  eexists. split; [reflexivity|].
  intros f Hf. destruct (write_file_keeps files f0 f Hf) as (f' & Hin & Hn & Hs).
  exists f'. split; [exact Hin|]. split; [exact Hn|].
  destruct Hs as [->|Heq]; [now left|]. right. rewrite Heq. now left.
Qed.

Lemma cache_same_trans a b c : cache_same a b -> cache_same b c -> cache_same a c.
Proof. unfold cache_same. congruence. Qed.

(** C9, as the code has it.  No operation of the script removes or renames
    a record of the cache: across the fetcher, the download, the lookup of
    the latest image, the renderer, the coordinator, the listener and the
    scheduler, every record keeps a record of its name, unchanged unless a
    download saved to that very path in between.  The fetcher, the lookup
    and the renderer do not touch the directory at all. *)
Theorem cache_records_are_kept E w :
  cache_kept w (snd (fetch_image_url E w)) /\
  (forall u, cache_kept w (snd (download_image E u w))) /\
  cache_kept w (snd (get_latest_saved_image w)) /\
  (forall p s, cache_kept w (snd (update_display E p s w))) /\
  cache_kept w (snd (refresh_image E w)) /\
  (forall rounds, cache_kept w (snd (button_listener E rounds w))) /\
  (forall cycles, cache_kept w (snd (auto_refresh E cycles w))) /\
  cache_same w (snd (fetch_image_url E w)) /\
  cache_same w (snd (get_latest_saved_image w)) /\
  (forall p s, cache_same w (snd (update_display E p s w))).
Proof.
  pose (all := fun _ : event => true).
  assert (Hemit : forall e w0, all e = true -> cache_kept w0 (emit e w0))
    by (intros; apply cache_kept_emit).
  assert (Hsave : forall w0 files f, cache_dir w0 = Some files ->
            cache_kept w0 {| cache_dir := Some (write_file files f);
                             trace := trace w0 ++
                               [FileSaved (os_path_join IMAGE_DIR (f_name f))] |})
    by (intros; now apply cache_kept_save).
  assert (Hall : forall e, inner_event e = true -> all e = true) by reflexivity.
  assert (Hsemit : forall e w0, all e = true -> cache_same w0 (emit e w0))
    by reflexivity.
  assert (Hsrefl : forall w0, cache_same w0 w0) by reflexivity.
  repeat split.
  - apply (respects_fetch_image_url E cache_kept all cache_kept_refl cache_kept_trans
             Hemit Hall).
  - intros u. apply (respects_download_image E cache_kept all cache_kept_refl
                       cache_kept_trans Hemit Hsave Hall).
  - apply (respects_get_latest_saved_image cache_kept all cache_kept_refl
             cache_kept_trans Hemit Hall).
  - intros p s. apply (respects_update_display_call E cache_kept all cache_kept_refl
                         cache_kept_trans Hemit Hall).
  - apply (respects_refresh_image_call E cache_kept all cache_kept_refl
             cache_kept_trans Hemit Hsave Hall eq_refl).
  - intros rounds. apply (respects_button_listener E cache_kept all cache_kept_refl
                            cache_kept_trans Hemit Hsave Hall eq_refl eq_refl).
  - intros cycles. apply (respects_auto_refresh E cache_kept all cache_kept_refl
                            cache_kept_trans Hemit Hsave Hall eq_refl
                            (fun _ => eq_refl)).
  - apply (respects_fetch_image_url E cache_same all Hsrefl cache_same_trans
             Hsemit Hall).
  - apply (respects_get_latest_saved_image cache_same all Hsrefl cache_same_trans
             Hsemit Hall).
  - intros p s. apply (respects_update_display_call E cache_same all Hsrefl
                         cache_same_trans Hsemit Hall).
Qed.

(** C9 as stated fails on an overwrite: a download in the second whose name
    a cached file already has replaces that file's content and time. *)
Lemma download_image_overwrites_same_second :
  find_file "20240309_105959.png" (files_of same_second_cache) =
    Some {| f_name := "20240309_105959.png"; f_mtime := 1;
            f_data := list_byte_of_string "old" |} /\
  fst (download_image online (JStr "https://muses.robr.app/i.png") same_second_cache) =
    Ok (Some "images/20240309_105959.png") /\
  files_of (snd (download_image online (JStr "https://muses.robr.app/i.png")
                   same_second_cache)) =
    [{| f_name := "20240309_105959.png"; f_mtime := 1001;
        f_data := list_byte_of_string "png" |}].
Proof. repeat split; vm_compute; reflexivity. Qed.

(** ** The directory stays well formed

    The statements about the newest file assume a directory with distinct
    names.  Every operation keeps it so: [image.save] replaces the entry of
    its name or adds one. *)

Lemma write_file_names files f n :
  In n (map f_name (write_file files f)) -> In n (map f_name files) \/ n = f_name f.
Proof.
  induction files as [|g files IH]; simpl.
  - intros [<-|[]]. now right.
  - destruct (String.eqb (f_name g) (f_name f)) eqn:Hg; simpl.
    + apply String.eqb_eq in Hg. intros [<-|H]; [now right | left; now right].
    + intros [<-|H]; [left; now left|]. destruct (IH H); [left; now right | now right].
Qed.

Lemma write_file_NoDup files f :
  NoDup (map f_name files) -> NoDup (map f_name (write_file files f)).
Proof.
  induction files as [|g files IH]; simpl.
  - intros _. repeat constructor. intros [].
  - intros Hnd. inversion Hnd as [|? ? Hnot Hnd']; subst.
    destruct (String.eqb (f_name g) (f_name f)) eqn:Hg; simpl.
    + apply String.eqb_eq in Hg. rewrite <- Hg. exact Hnd.
    + constructor; [|auto]. intros Hin.
      destruct (write_file_names _ _ _ Hin) as [H|H]; [contradiction|].
      apply String.eqb_neq in Hg. contradiction.
Qed.

Lemma directory_stays_well_formed E w :
  well_formed w ->
  well_formed (snd (fetch_image_url E w)) /\
  (forall u, well_formed (snd (download_image E u w))) /\
  well_formed (snd (get_latest_saved_image w)) /\
  (forall p s, well_formed (snd (update_display E p s w))) /\
  well_formed (snd (refresh_image E w)) /\
  (forall rounds, well_formed (snd (button_listener E rounds w))) /\
  (forall cycles, well_formed (snd (auto_refresh E cycles w))).
Proof.
  pose (all := fun _ : event => true).
  assert (Hrefl : forall w0, stays_well_formed w0 w0) by (intros w0 H; exact H).
  assert (Htrans : forall a b c, stays_well_formed a b -> stays_well_formed b c ->
                                 stays_well_formed a c)
    by (unfold stays_well_formed; auto).
  assert (Hemit : forall e w0, all e = true -> stays_well_formed w0 (emit e w0))
    by (intros e w0 _ H; exact H).
  assert (Hsave : forall w0 files f, cache_dir w0 = Some files ->
            stays_well_formed w0
              {| cache_dir := Some (write_file files f);
                 trace := trace w0 ++ [FileSaved (os_path_join IMAGE_DIR (f_name f))] |}).
  { intros w0 files f Hc. unfold stays_well_formed, well_formed, files_of.
    rewrite Hc. cbn [cache_dir]. apply write_file_NoDup. }
  assert (Hall : forall e, inner_event e = true -> all e = true) by reflexivity.
  intros Hw. repeat split.
  - apply (respects_fetch_image_url E stays_well_formed all Hrefl Htrans Hemit Hall w Hw).
  - intros u. apply (respects_download_image E stays_well_formed all Hrefl Htrans
                       Hemit Hsave Hall u w Hw).
  - apply (respects_get_latest_saved_image stays_well_formed all Hrefl Htrans
             Hemit Hall w Hw).
  - intros p s. apply (respects_update_display_call E stays_well_formed all Hrefl Htrans
                         Hemit Hall p s w Hw).
  - apply (respects_refresh_image_call E stays_well_formed all Hrefl Htrans
             Hemit Hsave Hall eq_refl w Hw).
  - intros rounds. apply (respects_button_listener E stays_well_formed all Hrefl Htrans
                            Hemit Hsave Hall eq_refl eq_refl rounds w Hw).
  - intros cycles. apply (respects_auto_refresh E stays_well_formed all Hrefl Htrans
                            Hemit Hsave Hall eq_refl (fun _ => eq_refl) cycles w Hw).
Qed.

(** * Further properties of the script *)

(** ** The fetcher *)

Section FetcherProperties.

Variable E : Env.


(** A response that passes the status check and holds a value under
    [images.small] makes the fetcher return that very value: after an info
    line when the value is true in Python's sense, after a warning when it
    is not (an empty string is returned as it is, not as [None]). *)
Theorem fetch_image_url_returns_small w r fields inner v :
  http_get E w API_URL = HttpResponse r ->
  status_passes r = true ->
  body_json r = Some (JObj fields) ->
  assoc "images" fields = Some (JObj inner) ->
  assoc "small" inner = Some v ->
  fetch_image_url E w =
    (Ok v, extend w [HttpGet (JStr API_URL);
                     if truthy v then Log INFO (MsgFetchedURL v)
                     else Log WARNING MsgNoImageURL]).
Proof.
  intros Hget Hstatus Hbody Himages Hsmall.
  unfold status_passes in Hstatus. apply negb_true_iff in Hstatus.
  cbv [fetch_image_url try_except bind requests_get raise_for_status response_json
       py_get ret raise logging].
  rewrite Hget, Hstatus, Hbody, Himages, Hsmall.
  destruct (truthy v); tidy; reflexivity.
Qed.


End FetcherProperties.

(** The fetcher on a sound response, and on one whose URL is empty. *)
Lemma fetch_image_url_returns_small_witness :
  fetch_image_url online empty_cache =
    (Ok (JStr "https://muses.robr.app/i.png"),
     extend empty_cache
       [HttpGet (JStr API_URL);
        Log INFO (MsgFetchedURL (JStr "https://muses.robr.app/i.png"))]) /\
  fetch_image_url empty_small empty_cache =
    (Ok (JStr ""),
     extend empty_cache [HttpGet (JStr API_URL); Log WARNING MsgNoImageURL]).
Proof.
  split.
  - eapply (fetch_image_url_returns_small online empty_cache); reflexivity.
  - eapply (fetch_image_url_returns_small empty_small empty_cache); reflexivity.
Defined.


(** ** The download *)

Lemma target_name_is_png E u w : endswith (target_name E u w) ".png" = true.
Proof. reflexivity. Qed.

Lemma write_file_In files f g :
  In g (write_file files f) -> g = f \/ In g files.
Proof.
  induction files as [|h files IH]; simpl.
  - intros [<-|[]]. now left.
  - destruct (String.eqb (f_name h) (f_name f)); simpl.
    + intros [<-|H]; [now left | right; now right].
    + intros [<-|H]; [right; now left|]. destruct (IH H); [now left | right; now right].
Qed.

Lemma write_file_has files f : In f (write_file files f).
Proof. eapply find_file_In. apply find_file_write. Qed.

(** With distinct names, an entry that is strictly newer than every other
    image is the latest saved image. *)
Lemma get_latest_saved_image_strictly_newest files w f :
  cache_dir w = Some files ->
  NoDup (map f_name files) ->
  In f files ->
  is_png f = true ->
  (forall g, In g files -> is_png g = true -> g = f \/ (f_mtime g < f_mtime f)%Z) ->
  get_latest_saved_image w = (Ok (Some (os_path_join IMAGE_DIR (f_name f))), w).
Proof.
  intros Hc Hnd Hf Hpng Hstrict.
  destruct (first_max_keyed_some files f Hf Hpng) as [m Hm].
  destruct (first_max_keyed files m Hnd Hm) as (f' & b & a & -> & Hsplit & Hb & Ha).
  rewrite (get_latest_saved_image_readable files w Hc), Hm. cbn [option_map path_of snd].
  assert (Hf' : In f' (filter is_png files)) by (rewrite Hsplit; apply in_elt).
  apply filter_In in Hf'. destruct Hf' as [Hf'in Hf'png].
  assert (Hfl : In f (filter is_png files)) by (apply filter_In; auto).
  rewrite Hsplit in Hfl. apply in_app_or in Hfl.
  destruct (Hstrict f' Hf'in Hf'png) as [->|Hlt]; [reflexivity|].
  destruct Hfl as [Hfl|[->|Hfl]]; [specialize (Hb f Hfl); lia | reflexivity |
                                   specialize (Ha f Hfl); lia].
Qed.

Section DownloadProperties.

Variable E : Env.

(** The download never raises.  For a false URL it returns nothing and
    touches nothing, without a request.  For any other URL it makes exactly
    one request; when it then has no image to return, it has logged one
    error line after the request and completed no save; when it returns a
    path, it made one save, the path is [images/<name>] with a name ending
    in [.png], and the directory holds a file of that name. *)
Theorem download_image_never_raises u w :
  exists r d,
    fst (download_image E u w) = Ok r /\
    trace (snd (download_image E u w)) = trace w ++ d /\
    (truthy u = false -> download_image E u w = (Ok None, w)) /\
    (truthy u = true -> requested d = [u]) /\
    match r with
    | None =>
        saved d = [] /\
        (truthy u = true -> exists m, d = [HttpGet u; Log ERROR m])
    | Some p =>
        truthy u = true /\
        saved d = [p] /\
        exists name f,
          p = os_path_join IMAGE_DIR name /\
          endswith name ".png" = true /\
          find_file name (files_of (snd (download_image E u w))) = Some f
    end.
Proof.
  destruct (truthy u) eqn:Hu.
  - destruct (download_image_cases E u w Hu) as [(m & ->)|(files & img & Hc & ->)].
    + exists None, [HttpGet u; Log ERROR m].
      repeat split; eauto; discriminate.
    + exists (Some (target_path E u w)).
      exists [HttpGet u; FileSaved (target_path E u w);
              Log INFO (MsgSavedNewImage (target_path E u w))].
      repeat split; try discriminate.
      eexists (target_name E u w), _. split; [reflexivity|].
      split; [apply target_name_is_png|].
      unfold files_of. cbn [snd cache_dir].
      match goal with |- find_file _ (write_file _ ?f) = _ =>
        apply (find_file_write files f) end.
  - rewrite (download_image_absent E u w Hu).
    exists None, []. cbn [fst snd]. rewrite app_nil_r.
    repeat split; discriminate.
Qed.


(** A download and the lookup compose: when the file system stamps the
    saved file later than every other cached image, the latest saved image
    is the one just downloaded. *)
Theorem download_then_latest u w p w2 files :
  truthy u = true ->
  download_image E u w = (Ok (Some p), w2) ->
  cache_dir w = Some files ->
  NoDup (map f_name files) ->
  (forall g, In g files -> is_png g = true ->
             f_name g <> target_name E u w ->
             (f_mtime g < fs_clock E (extend w [HttpGet u]))%Z) ->
  get_latest_saved_image w2 = (Ok (Some p), w2).
Proof.
  intros Hu Hdown Hc Hnd Hnewer.
  destruct (download_image_cases E u w Hu) as [(m & Hd)|(files' & img & Hc' & Hd)];
    rewrite Hd in Hdown; [discriminate|].
  rewrite Hc in Hc'. injection Hc' as <-.
  injection Hdown as <- <-.
  set (f := {| f_name := target_name E u w;
               f_mtime := fs_clock E (extend w [HttpGet u]);
               f_data := pil_encode_png E img |}).
  apply (get_latest_saved_image_strictly_newest (write_file files f) _ f).
  - reflexivity.
  - now apply write_file_NoDup.
  - apply write_file_has.
  - apply target_name_is_png.
  - intros g Hg Hpng. destruct (write_file_In files f g Hg) as [->|Hin]; [now left|].
    destruct (String.eqb (f_name g) (target_name E u w)) eqn:Hname.
    + left. apply String.eqb_eq in Hname.
      pose proof (find_file_NoDup (write_file files f) g
                    (write_file_NoDup files f Hnd) Hg) as H1.
      rewrite Hname in H1.
      pose proof (find_file_write files f) as H2. cbn [f_name f] in H2.
      congruence.
    + right. apply String.eqb_neq in Hname. apply (Hnewer g Hin Hpng Hname).
Qed.

End DownloadProperties.


(** A download into a cache of two older images, then the lookup. *)
Lemma download_then_latest_witness :
  get_latest_saved_image
    (snd (download_image online (JStr "https://muses.robr.app/i.png") two_files_cache)) =
  (Ok (Some "images/20240309_105959.png"),
   snd (download_image online (JStr "https://muses.robr.app/i.png") two_files_cache)).
Proof.
  eapply (download_then_latest online (JStr "https://muses.robr.app/i.png")
            two_files_cache).
  - reflexivity.
  - vm_compute. reflexivity.
  - reflexivity.
  - repeat constructor; simpl; intuition discriminate.
  - simpl. intros g [<-|[<-|[]]] _ _; vm_compute; reflexivity.
Defined.

(** ** The lookup of the latest image *)

(** The lookup never raises and never changes the directory.  On a
    directory that cannot be read it logs one error and finds nothing.  On
    a readable one it logs nothing, it finds nothing exactly when no entry
    ends in [.png], and what it finds is the path of an entry ending in
    [.png]: a file of another kind is never returned, however new. *)
Theorem get_latest_saved_image_only_images w :
  exists r,
    fst (get_latest_saved_image w) = Ok r /\
    cache_dir (snd (get_latest_saved_image w)) = cache_dir w /\
    match cache_dir w with
    | None =>
        r = None /\
        snd (get_latest_saved_image w) =
          extend w [Log ERROR (MsgErrorRetrieving OSError)]
    | Some files =>
        snd (get_latest_saved_image w) = w /\
        (r = None <-> forall f, In f files -> is_png f = false) /\
        (forall p, r = Some p ->
           exists f, In f files /\ is_png f = true /\
                     p = os_path_join IMAGE_DIR (f_name f))
    end.
Proof.
  destruct (cache_dir w) as [files|] eqn:Hc.
  - rewrite (get_latest_saved_image_readable files w Hc). cbn [fst snd].
    eexists. split; [reflexivity|]. split; [exact Hc|]. split; [reflexivity|].
    destruct (first_max (keyed files)) as [m|] eqn:Hm; cbn [option_map]; split.
    + split; [discriminate|]. intros Hnone. exfalso.
      destruct (first_max_split _ _ Hm) as (b & a & Hk & _).
      assert (Hin : In m (keyed files)) by (rewrite Hk; apply in_elt).
      unfold keyed in Hin. apply in_map_iff in Hin. destruct Hin as (n & _ & Hn).
      apply in_map_iff in Hn. destruct Hn as (f & _ & Hf).
      apply filter_In in Hf. destruct Hf as [Hf Hpng].
      rewrite (Hnone f Hf) in Hpng. discriminate.
    + intros p [= <-].
      destruct (first_max_split _ _ Hm) as (b & a & Hk & _).
      assert (Hin : In m (keyed files)) by (rewrite Hk; apply in_elt).
      unfold keyed in Hin. apply in_map_iff in Hin. destruct Hin as (n & <- & Hn).
      apply in_map_iff in Hn. destruct Hn as (f & <- & Hf).
      apply filter_In in Hf. destruct Hf as [Hf Hpng].
      exists f. repeat split; assumption.
    + split; [|reflexivity]. intros _ f Hf.
      destruct (is_png f) eqn:Hpng; [|reflexivity]. exfalso.
      apply first_max_None in Hm. unfold keyed in Hm.
      apply map_eq_nil in Hm. apply map_eq_nil in Hm.
      assert (Hin : In f (filter is_png files)) by (apply filter_In; auto).
      rewrite Hm in Hin. destruct Hin.
    + intros p H. discriminate H.
  - rewrite (get_latest_saved_image_unreadable w Hc). cbn [fst snd].
    exists None. repeat split. exact Hc.
Qed.

(** ** The renderer *)

Section RendererProperties.

Variable E : Env.

(** On a panel that takes the saturation, the renderer sets the resized
    image with the saturation, sets the border to black, shows the frame
    and logs the update, in this order. *)
Theorem update_display_sets_border path s w img resized :
  (forall w' i q, inky_set_image E w' i q = None) ->
  (forall w' c, inky_set_border E w' c = None) ->
  (forall w', inky_show E w' = None) ->
  fst (Image_open E path w) = Ok img ->
  pil_resize E img (inky_resolution E) = Some resized ->
  update_display E (Some path) s w =
    (Ok tt,
     extend w [Enter (Call_update_display (Some path));
               Panel (SetImage resized (Some s));
               Panel (SetBorder BLACK);
               Panel Show;
               Log INFO (MsgDisplayUpdated path)]).
Proof.
  intros Hset Hborder Hshow Hopen Hresize.
  unfold update_display. rewrite (Image_open_nonempty E path w img Hopen).
  rewrite bind_split, enter_run. cbn [fst snd].
  rewrite try_except_split, bind_split, Image_open_extend, Hopen. cbn [fst snd].
  unfold Image_resize. rewrite Hresize.
  rewrite bind_split, ret_run. cbn [fst snd].
  unfold panel_set_image, panel_set_border, panel_show.
  cbv [bind try_except]. rewrite Hset. cbn [of_option].
  rewrite Hborder. cbn [of_option]. rewrite Hshow. cbn [of_option fst snd].
  unfold logging. tidy. reflexivity.
Qed.

(** When the image cannot be opened (no such file, or a file that does not
    decode), nothing reaches the panel: the renderer logs the error and
    returns. *)
Theorem update_display_unreadable_image path s w e :
  String.eqb path "" = false ->
  fst (Image_open E path w) = Raise e ->
  update_display E (Some path) s w =
    (Ok tt,
     extend w [Enter (Call_update_display (Some path));
               Log ERROR (MsgErrorDisplaying e)]).
Proof.
  intros Hpath Hopen.
  unfold update_display. rewrite Hpath.
  rewrite bind_split, enter_run. cbn [fst snd].
  rewrite try_except_split, bind_split, Image_open_extend, Hopen. cbn [fst snd].
  unfold logging. tidy. reflexivity.
Qed.

(** Only a [TypeError] is answered by a second image set.  When the image
    set with saturation fails with any other error, the renderer neither
    retries nor sets the border nor shows the frame: it logs the error. *)
Theorem update_display_other_error_no_retry path s w img resized e :
  is_TypeError e = false ->
  (forall w' i q, inky_set_image E w' i (Some q) = Some e) ->
  fst (Image_open E path w) = Ok img ->
  pil_resize E img (inky_resolution E) = Some resized ->
  update_display E (Some path) s w =
    (Ok tt,
     extend w [Enter (Call_update_display (Some path));
               Panel (SetImage resized (Some s));
               Log ERROR (MsgErrorDisplaying e)]).
Proof.
  intros He Hset Hopen Hresize.
  unfold update_display. rewrite (Image_open_nonempty E path w img Hopen).
  rewrite bind_split, enter_run. cbn [fst snd].
  rewrite try_except_split, bind_split, Image_open_extend, Hopen. cbn [fst snd].
  unfold Image_resize. rewrite Hresize.
  rewrite bind_split, ret_run. cbn [fst snd].
  unfold panel_set_image, panel_set_border, panel_show.
  cbv [bind try_except]. rewrite Hset. cbn [of_option]. rewrite He.
  cbn [fst snd]. unfold logging. tidy. reflexivity.
Qed.

(** Every call of the renderer returns, leaves the directory alone, and
    adds its panel calls, at most four, followed by exactly one log line.
    The line is a warning only when nothing reached the panel, and it is the
    info line only when the last panel call was the show. *)
Theorem update_display_shape p s w :
  exists calls lvl msg,
    update_display E p s w =
      (Ok tt, extend w (Enter (Call_update_display p) :: map Panel calls ++ [Log lvl msg])) /\
    (List.length calls <= 4)%nat /\
    (lvl = WARNING -> calls = []) /\
    (lvl = INFO -> exists before, calls = before ++ [Show]).
Proof.
  assert (Hdone : forall (calls : list panel_call) lvl msg,
    (List.length calls <= 4)%nat ->
    (lvl = WARNING -> calls = []) ->
    (lvl = INFO -> exists before, calls = before ++ [Show]) ->
    exists calls' lvl' msg',
      (Ok tt, extend w (Enter (Call_update_display p) :: map Panel calls ++ [Log lvl msg])) =
      (Ok tt, extend w (Enter (Call_update_display p) :: map Panel calls' ++ [Log lvl' msg'])) /\
      (List.length calls' <= 4)%nat /\
      (lvl' = WARNING -> calls' = []) /\
      (lvl' = INFO -> exists before, calls' = before ++ [Show])).
  { intros calls lvl msg H1 H2 H3. exists calls, lvl, msg. auto. }
  unfold update_display.
  destruct p as [path|]; [destruct (String.eqb path "")|]; run;
    try (apply (Hdone [] WARNING MsgNoValidImage);
         [simpl; lia | reflexivity | discriminate]).
  destruct (fst (Image_open E path _)) as [img|e]; run;
    [|apply (Hdone [] ERROR (MsgErrorDisplaying e));
      [simpl; lia | reflexivity | discriminate]].
  destruct (fst (Image_resize E img _ _)) as [resized|e]; run;
    [|apply (Hdone [] ERROR (MsgErrorDisplaying e));
      [simpl; lia | reflexivity | discriminate]].
  set (first_try := SetImage resized (Some s)).
  set (second_try := SetImage resized None).
  destruct (fst (panel_set_image E resized (Some s) _)) as [[]|e]; run.
  - destruct (fst (panel_set_border E BLACK _)) as [[]|e]; run.
    + destruct (fst (panel_show E _)) as [[]|e]; run.
      * apply (Hdone [first_try; SetBorder BLACK; Show] INFO (MsgDisplayUpdated path));
          [simpl; lia | discriminate | intros _; exists [first_try; SetBorder BLACK]; reflexivity].
      * apply (Hdone [first_try; SetBorder BLACK; Show] ERROR (MsgErrorDisplaying e));
          [simpl; lia | discriminate | discriminate].
    + destruct (is_TypeError e); run.
      * destruct (fst (panel_set_image E resized None _)) as [[]|e']; run;
          [destruct (fst (panel_show E _)) as [[]|e']; run|].
        -- apply (Hdone [first_try; SetBorder BLACK; second_try; Show] INFO
                    (MsgDisplayUpdated path));
             [simpl; lia | discriminate |
              intros _; exists [first_try; SetBorder BLACK; second_try]; reflexivity].
        -- apply (Hdone [first_try; SetBorder BLACK; second_try; Show] ERROR
                    (MsgErrorDisplaying e')); [simpl; lia | discriminate | discriminate].
        -- apply (Hdone [first_try; SetBorder BLACK; second_try] ERROR
                    (MsgErrorDisplaying e')); [simpl; lia | discriminate | discriminate].
      * apply (Hdone [first_try; SetBorder BLACK] ERROR (MsgErrorDisplaying e));
          [simpl; lia | discriminate | discriminate].
  - destruct (is_TypeError e); run.
    + destruct (fst (panel_set_image E resized None _)) as [[]|e']; run;
        [destruct (fst (panel_show E _)) as [[]|e']; run|].
      * apply (Hdone [first_try; second_try; Show] INFO (MsgDisplayUpdated path));
          [simpl; lia | discriminate | intros _; exists [first_try; second_try]; reflexivity].
      * apply (Hdone [first_try; second_try; Show] ERROR (MsgErrorDisplaying e'));
          [simpl; lia | discriminate | discriminate].
      * apply (Hdone [first_try; second_try] ERROR (MsgErrorDisplaying e'));
          [simpl; lia | discriminate | discriminate].
    + apply (Hdone [first_try] ERROR (MsgErrorDisplaying e));
        [simpl; lia | discriminate | discriminate].
Qed.

End RendererProperties.

(** The renderer on a sound panel and a cached image. *)
Lemma update_display_sets_border_witness :
  update_display online (Some "images/20240301_120000.png")
                 default_saturation one_file_cache =
    (Ok tt,
     extend one_file_cache
       [Enter (Call_update_display (Some "images/20240301_120000.png"));
        Panel (SetImage picture (Some default_saturation));
        Panel (SetBorder BLACK);
        Panel Show;
        Log INFO (MsgDisplayUpdated "images/20240301_120000.png")]).
Proof.
  apply (update_display_sets_border online _ _ _ picture picture); try reflexivity.
  intros w' i [q|]; reflexivity.
Defined.

(** The renderer on a path that names no cached file. *)
Lemma update_display_unreadable_image_witness :
  update_display online (Some "images/gone.png") default_saturation one_file_cache =
    (Ok tt,
     extend one_file_cache
       [Enter (Call_update_display (Some "images/gone.png"));
        Log ERROR (MsgErrorDisplaying OSError)]).
Proof.
  apply (update_display_unreadable_image online); reflexivity.
Defined.

(** The renderer on a panel whose image set fails with [OSError]. *)
Lemma update_display_other_error_no_retry_witness :
  update_display panel_broken (Some "images/20240301_120000.png")
                 default_saturation one_file_cache =
    (Ok tt,
     extend one_file_cache
       [Enter (Call_update_display (Some "images/20240301_120000.png"));
        Panel (SetImage picture (Some default_saturation));
        Log ERROR (MsgErrorDisplaying OSError)]).
Proof.
  apply (update_display_other_error_no_retry panel_broken _ _ _ picture picture);
    reflexivity.
Defined.

(** ** The coordinator *)


Section CoordinatorProperties.

Variable E : Env.



(** When the fetcher returns a URL and the download fails, the refresh
    falls back like one without a URL: it saves nothing and renders a cached
    image that none is newer than, after the warning of the fallback. *)
Theorem refresh_image_failed_download_falls_back w u w1 w2 files :
  fetch_image_url E (started w) = (Ok u, w1) ->
  truthy u = true ->
  download_image E u w1 = (Ok None, w2) ->
  cache_dir w = Some files ->
  NoDup (map f_name files) ->
  (exists g, In g files /\ is_png g = true) ->
  exists w3 d f,
    refresh_image E w = (Ok tt, w3) /\
    trace w3 = trace w ++ d /\
    cache_dir w3 = Some files /\
    saved d = [] /\
    renders d = [Some (os_path_join IMAGE_DIR (f_name f))] /\
    warnings d = [MsgFallingBack] /\
    In f files /\ is_png f = true /\
    (forall g, In g files -> is_png g = true -> (f_mtime g <= f_mtime f)%Z).
Proof.
  intros Hfetch Hu Hdown Hc Hnd (g0 & Hg0 & Hpng0).
  assert (Hf : fetch_image_url E (started w) =
            (Ok u, extend (started w)
                     [HttpGet (JStr API_URL); Log INFO (MsgFetchedURL u)]) /\
          w1 = extend (started w) [HttpGet (JStr API_URL); Log INFO (MsgFetchedURL u)]).
  { destruct (fetch_image_url_cases E (started w))
      as [(u' & _ & Hf)|[(u' & Hu' & Hf)|[(e & Hf)|Hf]]]; rewrite Hf in Hfetch.
    - injection Hfetch as Hu1 Hw. subst u' w1. now rewrite Hf.
    - injection Hfetch as Hu1 Hw. subst u'. congruence.
    - injection Hfetch as Hu1 Hw. subst u. discriminate Hu.
    - discriminate Hfetch. }
  destruct Hf as [Hf ->].
  destruct (download_image_cases E u
              (extend (started w) [HttpGet (JStr API_URL); Log INFO (MsgFetchedURL u)]) Hu)
    as [(m & Hd)|(files' & img & _ & Hd)];
    rewrite Hd in Hdown; [|discriminate]. injection Hdown as <-.
  destruct (first_max_keyed_some files g0 Hg0 Hpng0) as [mx Hm].
  destruct (first_max_keyed files mx Hnd Hm) as (f & b & a & -> & Hsplit & Hb & Ha).
  set (p := os_path_join IMAGE_DIR (f_name f)).
  set (df := [HttpGet (JStr API_URL); Log INFO (MsgFetchedURL u)]) in *.
  set (w2 := extend (extend (extend (started w) df) [HttpGet u; Log ERROR m])
                    [Log WARNING MsgFallingBack]).
  destruct (update_display_cases E (Some p) default_saturation w2)
    as (dd & Hupd & Hdd & Hwarn).
  destruct (display_silent dd Hdd) as (Hs2 & Hr2 & _).
  assert (Hf' : In f (filter is_png files)) by (rewrite Hsplit; apply in_elt).
  apply filter_In in Hf'. destruct Hf' as [Hfin Hfpng].
  exists (extend w2 (Enter (Call_update_display (Some p)) :: dd)).
  exists ([Enter Call_refresh_image; Log INFO MsgRefreshing] ++ df ++
          [HttpGet u; Log ERROR m] ++ [Log WARNING MsgFallingBack] ++
          [Enter (Call_update_display (Some p))] ++ dd).
  exists f.
  split; [|split; [|split; [|split; [|split; [|split; [|split; [|split]]]]]]].
  - rewrite refresh_image_start, bind_split, Hf. cbn [fst snd]. rewrite Hu.
    rewrite bind_split, Hd. cbn [fst snd no_path].
    rewrite bind_split, bind_split, logging_run. cbn [fst snd].
    rewrite (get_latest_saved_image_readable files) by exact Hc.
    rewrite Hm. cbn [fst snd option_map]. exact Hupd.
  - subst w2. unfold started, extend. cbn [trace]. rewrite <- !app_assoc. reflexivity.
  - exact Hc.
  - subst df. rewrite !saved_app, Hs2. reflexivity.
  - subst df. rewrite !renders_app, Hr2. reflexivity.
  - subst df. rewrite !warnings_app.
    assert (Hnp : no_path (Some p) = false) by reflexivity.
    rewrite Hnp in Hwarn. rewrite Hwarn. reflexivity.
  - exact Hfin.
  - exact Hfpng.
  - intros g Hg Hpng.
    assert (Hin : In g (filter is_png files)) by (apply filter_In; auto).
    rewrite Hsplit in Hin. apply in_app_or in Hin.
    destruct Hin as [Hin|[<-|Hin]]; [specialize (Hb g Hin) | | specialize (Ha g Hin)]; lia.
Qed.

End CoordinatorProperties.

(** A refresh whose image endpoint answers 404, over two cached images. *)
Lemma refresh_image_failed_download_falls_back_witness :
  exists w3 d f,
    refresh_image image_missing two_files_cache = (Ok tt, w3) /\
    trace w3 = trace two_files_cache ++ d /\
    cache_dir w3 = Some (files_of two_files_cache) /\
    saved d = [] /\
    renders d = [Some (os_path_join IMAGE_DIR (f_name f))] /\
    warnings d = [MsgFallingBack] /\
    In f (files_of two_files_cache) /\ is_png f = true /\
    (forall g, In g (files_of two_files_cache) -> is_png g = true ->
               (f_mtime g <= f_mtime f)%Z).
Proof.
  eapply (refresh_image_failed_download_falls_back image_missing two_files_cache).
  - vm_compute. reflexivity.
  - reflexivity.
  - vm_compute. reflexivity.
  - reflexivity.
  - repeat constructor; simpl; intuition discriminate.
  - eexists. split; [left; reflexivity | reflexivity].
Defined.

(** ** The listener *)

Section ListenerProperties.

Variable E : Env.

(** A batch of presses on configured lines other than that of button B is
    handled to its end and leaves one log line per press and nothing else:
    no request, no save, no panel call, no refresh. *)
Theorem for_each_event_without_B events w :
  (forall ev, In ev events -> In (line_offset ev) (OFFSETS E)) ->
  (forall ev, In ev events -> labelled_B (OFFSETS E) ev = false) ->
  exists d,
    for_each_event E events w = (Ok tt, extend w d) /\
    List.length d = List.length events /\
    List.length (logged d) = List.length events.
Proof.
  revert w. induction events as [|ev events IH]; intros w Hknown HnotB.
  - exists []. simpl. rewrite extend_nil. repeat split.
  - assert (Hev : exists gpio label,
              handle_event E ev w = (Ok tt, extend w [Log INFO (MsgButtonPress gpio label)])).
    { destruct (index_of_In _ _ (Hknown ev (or_introl eq_refl))) as [i Hi].
      pose proof (handle_event_at E ev w i Hi) as H.
      pose proof (HnotB ev (or_introl eq_refl)) as HB. unfold labelled_B in HB.
      rewrite Hi in HB.
      destruct i as [|[|i]]; [| discriminate HB |];
        destruct H as (gpio & label & _ & _ & H); eauto. }
    destruct Hev as (gpio & label & Hev).
    destruct (IH (extend w [Log INFO (MsgButtonPress gpio label)])) as (d & Hd & Hlen & Hlog).
    { intros ev' H. apply Hknown. now right. }
    { intros ev' H. apply HnotB. now right. }
    exists (Log INFO (MsgButtonPress gpio label) :: d). split; [|split].
    + simpl. rewrite bind_split, Hev. cbn [fst snd]. rewrite Hd, extend_extend. reflexivity.
    + simpl. now rewrite Hlen.
    + simpl. now rewrite Hlog.
Qed.

(** A press on a line that is not configured ends the batch where it
    stands: the presses before it are handled, the ones after it are not,
    and the [ValueError] leaves the loop. *)
Theorem for_each_event_stops_at_unknown_line before ev rest w :
  fst (for_each_event E before w) = Ok tt ->
  ~ In (line_offset ev) (OFFSETS E) ->
  for_each_event E (before ++ ev :: rest) w =
    (Raise ValueError, snd (for_each_event E before w)).
Proof.
  intros Hbefore Hout. rewrite for_each_event_app, Hbefore.
  assert (Hev : forall w', handle_event E ev w' = (Raise ValueError, w')).
  { intros w'. unfold handle_event, list_index.
    rewrite (index_of_not_In _ _ Hout). reflexivity. }
  simpl. rewrite bind_split, Hev. reflexivity.
Qed.

(** While no press arrives the listener only reads: after its start line,
    every turn of its loop adds one read and nothing else. *)
Theorem button_listener_idle rounds w :
  (forall w', request_read_edge_events E w' = []) ->
  button_listener E rounds w =
    (Ok tt, extend w (Log INFO MsgListenerStarted :: repeat GpioRead rounds)).
Proof.
  intros Hidle.
  assert (Hlisten : forall n w0, listen E n w0 = (Ok tt, extend w0 (repeat GpioRead n))).
  { induction n as [|n IH]; intros w0; simpl.
    - now rewrite extend_nil.
    - rewrite bind_split, read_edge_events_run. cbn [fst snd]. rewrite Hidle.
      simpl for_each_event. rewrite bind_split, ret_run. cbn [fst snd].
      rewrite IH, extend_extend. reflexivity. }
  unfold button_listener. rewrite bind_split, logging_run. cbn [fst snd].
  rewrite Hlisten, extend_extend. reflexivity.
Qed.

End ListenerProperties.

(** Presses on A, C, D and A again. *)
Lemma for_each_event_without_B_witness :
  exists d,
    for_each_event online [press 5; press 16; press 24; press 5] empty_cache =
      (Ok tt, extend empty_cache d) /\
    List.length d = 4%nat /\
    List.length (logged d) = 4%nat.
Proof.
  apply (for_each_event_without_B online [press 5; press 16; press 24; press 5]
           empty_cache).
  - intros ev [<-|[<-|[<-|[<-|[]]]]]; simpl; auto.
  - intros ev [<-|[<-|[<-|[<-|[]]]]]; reflexivity.
Defined.

(** A press on C, one on the unconfigured line 7, one on B. *)
Lemma for_each_event_stops_at_unknown_line_witness :
  for_each_event online ([press 16] ++ press 7 :: [press 6]) empty_cache =
    (Raise ValueError, snd (for_each_event online [press 16] empty_cache)) /\
  trace (snd (for_each_event online [press 16; press 7; press 6] empty_cache)) =
    [Log INFO (MsgButtonPress 16 "C")].
Proof.
  split; [|vm_compute; reflexivity].
  apply (for_each_event_stops_at_unknown_line online [press 16] (press 7) [press 6]
           empty_cache).
  - reflexivity.
  - simpl. intuition discriminate.
Defined.

(** Three turns of an idle listener. *)
Lemma button_listener_idle_witness :
  button_listener online 3 empty_cache =
    (Ok tt, extend empty_cache [Log INFO MsgListenerStarted; GpioRead; GpioRead; GpioRead]).
Proof. apply (button_listener_idle online 3 empty_cache). reflexivity. Defined.

(** ** The scheduler *)

Section SchedulerProperties.

Variable E : Env.





End SchedulerProperties.

(** ** The names of the cached files *)

Arguments digit : simpl never.

Lemma digit_compare x y :
  Ascii.compare (digit x) (digit y) = (x mod 10 ?= y mod 10)%Z.
Proof.
  unfold digit.
  assert (Hx : (0 <= x mod 10 < 10)%Z) by (apply Z.mod_pos_bound; lia).
  assert (Hy : (0 <= y mod 10 < 10)%Z) by (apply Z.mod_pos_bound; lia).
  set (a := (x mod 10)%Z) in *. set (b := (y mod 10)%Z) in *.
  assert (Ha : (a = 0 \/ a = 1 \/ a = 2 \/ a = 3 \/ a = 4 \/ a = 5 \/ a = 6 \/
                a = 7 \/ a = 8 \/ a = 9)%Z) by lia.
  assert (Hb : (b = 0 \/ b = 1 \/ b = 2 \/ b = 3 \/ b = 4 \/ b = 5 \/ b = 6 \/
                b = 7 \/ b = 8 \/ b = 9)%Z) by lia.
  clearbody a b.
  repeat (destruct Ha as [->|Ha]); try subst a;
    repeat (destruct Hb as [->|Hb]); try subst b; reflexivity.
Qed.

Lemma digits2_compare a b s1 s2 :
  (0 <= a < 100)%Z -> (0 <= b < 100)%Z ->
  String.compare (digits2 a ++ s1) (digits2 b ++ s2) =
  match (a ?= b)%Z with Eq => String.compare s1 s2 | c => c end.
Proof.
  intros Ha Hb. unfold digits2. cbn [append String.compare].
  rewrite !digit_compare.
  destruct (Z.compare_spec ((a / 10) mod 10) ((b / 10) mod 10));
    destruct (Z.compare_spec (a mod 10) (b mod 10));
    destruct (Z.compare_spec a b); try reflexivity; exfalso;
    Z.div_mod_to_equations; lia.
Qed.

Lemma digits4_compare a b s1 s2 :
  (0 <= a < 10000)%Z -> (0 <= b < 10000)%Z ->
  String.compare (digits4 a ++ s1) (digits4 b ++ s2) =
  match (a ?= b)%Z with Eq => String.compare s1 s2 | c => c end.
Proof.
  intros Ha Hb. unfold digits4. cbn [append String.compare].
  rewrite !digit_compare.
  destruct (Z.compare_spec ((a / 1000) mod 10) ((b / 1000) mod 10));
    destruct (Z.compare_spec ((a / 100) mod 10) ((b / 100) mod 10));
    destruct (Z.compare_spec ((a / 10) mod 10) ((b / 10) mod 10));
    destruct (Z.compare_spec (a mod 10) (b mod 10));
    destruct (Z.compare_spec a b); try reflexivity; exfalso;
    Z.div_mod_to_equations; lia.
Qed.

Lemma append_empty (s : string) : (s ++ "")%string = s.
Proof. induction s as [|c s IH]; simpl; [reflexivity | now rewrite IH]. Qed.

(** Comparing two timestamps as strings is comparing their fields, year
    first. *)
Lemma strftime_compare t1 t2 :
  stamp_in_range t1 -> stamp_in_range t2 ->
  String.compare (strftime t1) (strftime t2) =
  lex_compare (stamp_fields t1) (stamp_fields t2).
Proof.
  intros (Hy1 & Hm1 & Hd1 & HH1 & HM1 & HS1) (Hy2 & Hm2 & Hd2 & HH2 & HM2 & HS2).
  unfold strftime, stamp_fields. cbn [lex_compare].
  rewrite digits4_compare by lia.
  rewrite 2 digits2_compare by assumption.
  change ("_" ++ ?s)%string with (String "_" s).
  cbn [append String.compare].
  change (Ascii.compare "_" "_") with Eq. cbv iota.
  rewrite 2 digits2_compare by assumption.
  rewrite <- (append_empty (digits2 (second t1))), <- (append_empty (digits2 (second t2))).
  rewrite digits2_compare by assumption.
  reflexivity.
Qed.

Lemma compare_append s1 s2 x y :
  String.length s1 = String.length s2 ->
  String.compare (s1 ++ x) (s2 ++ y) =
  match String.compare s1 s2 with Eq => String.compare x y | c => c end.
Proof.
  revert s2. induction s1 as [|c1 s1 IH]; intros [|c2 s2] Hlen; try discriminate Hlen.
  - reflexivity.
  - simpl. destruct (Ascii.compare c1 c2); try reflexivity.
    apply IH. simpl in Hlen. congruence.
Qed.

Lemma compare_same s : String.compare s s = Eq.
Proof.
  induction s as [|c s IH]; simpl; [reflexivity|].
  unfold Ascii.compare. now rewrite N.compare_refl.
Qed.

Lemma lex_compare_Eq a b : lex_compare a b = Eq -> a = b.
Proof.
  revert b. induction a as [|x a IH]; intros [|y b]; simpl; try discriminate; auto.
  destruct (Z.compare_spec x y) as [Hxy|Hxy|Hxy]; try discriminate.
  intros Hrest. subst. f_equal. auto.
Qed.

Lemma strftime_length t : String.length (strftime t) = 15%nat.
Proof. reflexivity. Qed.

(** The files of the cache sort by name as they sort by time: comparing the
    names of two downloads as strings gives the comparison of their times,
    year first, down to the second. *)
Theorem cache_names_sort_by_time t1 t2 :
  stamp_in_range t1 -> stamp_in_range t2 ->
  String.compare (strftime t1 ++ ".png") (strftime t2 ++ ".png") =
  lex_compare (stamp_fields t1) (stamp_fields t2).
Proof.
  intros H1 H2.
  rewrite compare_append by (now rewrite !strftime_length).
  rewrite (strftime_compare t1 t2 H1 H2).
  now destruct (lex_compare (stamp_fields t1) (stamp_fields t2)).
Qed.

(** Two downloads write to the same file exactly when their times agree
    down to the second. *)
Theorem cache_names_collide_within_a_second t1 t2 :
  stamp_in_range t1 -> stamp_in_range t2 ->
  (os_path_join IMAGE_DIR (strftime t1 ++ ".png") =
   os_path_join IMAGE_DIR (strftime t2 ++ ".png")
   <-> stamp_fields t1 = stamp_fields t2).
Proof.
  intros H1 H2. split.
  - intros Hp. apply os_path_join_inj in Hp.
    apply lex_compare_Eq. rewrite <- (strftime_compare t1 t2 H1 H2).
    assert (Hc : String.compare (strftime t1 ++ ".png") (strftime t2 ++ ".png") = Eq)
      by (rewrite Hp; apply compare_same).
    rewrite compare_append in Hc by (now rewrite !strftime_length).
    now destruct (String.compare (strftime t1) (strftime t2)).
  - unfold stamp_fields. intros [= Hy Hm Hd HH HM HS].
    unfold strftime. now rewrite Hy, Hm, Hd, HH, HM, HS.
Qed.

(** One second to eleven sorts before eleven. *)
Lemma cache_names_sort_by_time_witness :
  String.compare (strftime just_before_eleven ++ ".png") (strftime on_the_hour ++ ".png") = Lt.
Proof.
  rewrite (cache_names_sort_by_time just_before_eleven on_the_hour);
    [reflexivity | |]; unfold stamp_in_range; simpl; lia.
Defined.

(** Two times within one second share their file. *)
Lemma cache_names_collide_within_a_second_witness :
  os_path_join IMAGE_DIR (strftime just_before_eleven ++ ".png") =
  os_path_join IMAGE_DIR
    (strftime {| year := 2024; month := 3; day := 9;
                 hour := 10; minute := 59; second := 59; microsecond := 5 |} ++ ".png").
Proof.
  apply (proj2 (cache_names_collide_within_a_second just_before_eleven
                  {| year := 2024; month := 3; day := 9;
                     hour := 10; minute := 59; second := 59; microsecond := 5 |}
                  ltac:(unfold stamp_in_range; simpl; lia)
                  ltac:(unfold stamp_in_range; simpl; lia))).
  reflexivity.
Defined.

(** ** The requests of a refresh *)

Lemma display_no_request d : forallb display_event d = true -> requested d = [].
Proof.
  induction d as [|e d IH]; simpl; [reflexivity|].
  rewrite andb_true_iff. intros [He Hd]. rewrite (IH Hd).
  destruct e; try discriminate He; reflexivity.
Qed.

Lemma requested_app a b : requested (a ++ b) = requested a ++ requested b.
Proof. apply flat_map_app. Qed.

Section RefreshRequests.

Variable E : Env.

Lemma fallback_requests_nothing w0 :
  exists d,
    snd (bind (logging WARNING MsgFallingBack ;; get_latest_saved_image)
              (fun image_path => update_display E image_path default_saturation) w0) =
      extend w0 d /\
    requested d = [].
Proof.
  rewrite bind_split, bind_split, logging_run. cbn [fst snd].
  set (w1 := extend w0 [Log WARNING MsgFallingBack]).
  assert (Hl : exists r dl, get_latest_saved_image w1 = (Ok r, extend w1 dl) /\
                            requested dl = []).
  { destruct (cache_dir w1) as [files|] eqn:Hc.
    - rewrite (get_latest_saved_image_readable files w1 Hc).
      eexists _, []. rewrite extend_nil. split; reflexivity.
    - rewrite (get_latest_saved_image_unreadable w1 Hc).
      eexists _, _. split; reflexivity. }
  destruct Hl as (r & dl & -> & Hdl). cbn [fst snd].
  destruct (update_display_cases E r default_saturation (extend w1 dl))
    as (dd & -> & Hdd & _). cbn [snd].
  exists ([Log WARNING MsgFallingBack] ++ dl ++ [Enter (Call_update_display r)] ++ dd).
  split; [subst w1; rewrite !extend_extend; reflexivity|].
  rewrite !requested_app, Hdl, (display_no_request dd Hdd). reflexivity.
Qed.

(** A refresh makes at most two requests: one to the metadata endpoint and,
    only when that gave it a URL, one to that URL.  Nothing is requested on
    the way to the fallback or the panel. *)
Theorem refresh_image_requests w :
  exists d,
    trace (snd (refresh_image E w)) = trace w ++ d /\
    (requested d = [JStr API_URL] \/
     exists u,
       fst (fetch_image_url E (started w)) = Ok u /\ truthy u = true /\
       requested d = [JStr API_URL; u]).
Proof.
  rewrite refresh_image_start, bind_split.
  destruct (fetch_image_url_cases E (started w))
    as [(u & Hu & Hf)|[(u & Hu & Hf)|[(e & Hf)|Hf]]]; rewrite Hf; cbn [fst snd].
  - rewrite Hu.
    set (w1 := extend (started w) [HttpGet (JStr API_URL); Log INFO (MsgFetchedURL u)]).
    destruct (download_image_cases E u w1 Hu) as [(m & Hd)|(files & img & Hc & Hd)].
    + rewrite bind_split, Hd; cbn [fst snd no_path].
      destruct (fallback_requests_nothing (extend w1 [HttpGet u; Log ERROR m]))
        as (d & -> & Hreq).
      exists ([Enter Call_refresh_image; Log INFO MsgRefreshing] ++
              [HttpGet (JStr API_URL); Log INFO (MsgFetchedURL u)] ++
              [HttpGet u; Log ERROR m] ++ d).
      split; [subst w1; unfold started; rewrite !extend_extend; reflexivity|].
      right. exists u. split; [reflexivity|]. split; [exact Hu|].
      rewrite !requested_app, Hreq. reflexivity.
    + set (p := target_path E u w1) in *.
      match type of Hd with _ = (_, ?w') => set (w2 := w') in * end.
      rewrite bind_split, Hd; cbn [fst snd no_path].
      assert (Hp : String.eqb p "" = false) by reflexivity. rewrite Hp.
      rewrite bind_split, ret_run. cbn [fst snd].
      destruct (update_display_cases E (Some p) default_saturation w2)
        as (dd & -> & Hdd & _).
      exists ([Enter Call_refresh_image; Log INFO MsgRefreshing] ++
              [HttpGet (JStr API_URL); Log INFO (MsgFetchedURL u)] ++
              [HttpGet u; FileSaved p; Log INFO (MsgSavedNewImage p)] ++
              [Enter (Call_update_display (Some p))] ++ dd).
      split.
      { subst w2 w1. unfold started, extend. cbn [trace snd]. rewrite <- !app_assoc.
        reflexivity. }
      right. exists u. split; [reflexivity|]. split; [exact Hu|].
      rewrite !requested_app, (display_no_request dd Hdd). reflexivity.
  - rewrite Hu. rewrite bind_split, ret_run. cbn [fst snd no_path].
    destruct (fallback_requests_nothing
                (extend (started w) [HttpGet (JStr API_URL); Log WARNING MsgNoImageURL]))
      as (d & -> & Hreq).
    exists ([Enter Call_refresh_image; Log INFO MsgRefreshing] ++
            [HttpGet (JStr API_URL); Log WARNING MsgNoImageURL] ++ d).
    split; [unfold started; rewrite !extend_extend; reflexivity|].
    left. rewrite !requested_app, Hreq. reflexivity.
  - cbn [truthy]. rewrite bind_split, ret_run. cbn [fst snd no_path].
    destruct (fallback_requests_nothing
                (extend (started w)
                   [HttpGet (JStr API_URL); Log ERROR (MsgErrorFetching e)]))
      as (d & -> & Hreq).
    exists ([Enter Call_refresh_image; Log INFO MsgRefreshing] ++
            [HttpGet (JStr API_URL); Log ERROR (MsgErrorFetching e)] ++ d).
    split; [unfold started; rewrite !extend_extend; reflexivity|].
    left. rewrite !requested_app, Hreq. reflexivity.
  - exists ([Enter Call_refresh_image; Log INFO MsgRefreshing] ++
            [HttpGet (JStr API_URL)]).
    split; [unfold started; rewrite !extend_extend; reflexivity|].
    left. reflexivity.
Qed.

End RefreshRequests.
